(** * Stale EBS snapshot cleanup: a shallow embedding of
      [ebs_cleanup_lambda.py] and the properties of its eligibility
      check and of its cleanup loop.

    The Python module talks to three collaborators (STS, the EC2
    [describe_images] and [delete_snapshot] calls, and the snapshot
    paginator), keeps one module-level global ([_account_id]) and one
    mutable dictionary ([stats]).  The embedding threads a state [St] that
    holds the global, the statistics and the trace of every request and
    logger call, through a small state-and-exception monad.

    Two smaller scripts follow, each in a module of its own with the
    trace passed explicitly: [rds_automation_lambda.py] ([Rds]) and
    [ebs_snapshot_creation.py] ([SnapshotCreation]). *)

From Stdlib Require Import ZArith String Ascii List Bool Lia DecimalString.
From stdpp Require Import gmap strings list fin_maps pretty.

Set Warnings "-register-all".

Local Open Scope string_scope.
Local Open Scope list_scope.
Local Open Scope Z_scope.

(* ===================================================================== *)
(** ** Python values *)
(* ===================================================================== *)

Module Py.

(** Strings are sequences of code points below 256; on that range
  [str.lower] maps A..Z and the upper-case Latin-1 letters (U+00C0 to
  U+00DE, the multiplication sign U+00D7 apart) 32 places up and leaves
  every other code point alone. *)
Definition lower_char (c : ascii) : ascii :=
let n := N_of_ascii c in
if ((65 <=? n) && (n <=? 90) ||
    (192 <=? n) && (n <=? 222) && negb (n =? 215))%N
then ascii_of_N (n + 32) else c.

Fixpoint lower (s : string) : string :=
match s with
| EmptyString => EmptyString
| String c s' => String (lower_char c) (lower s')
end.

(** [s == t] on strings. *)
Definition str_eqb (s t : string) : bool := bool_decide (s = t).

(** [x in ("a", "b", ...)]. *)
Definition str_in (s : string) (l : list string) : bool :=
existsb (str_eqb s) l.

(** A binary float, [m * 2^e], or one of the three special values; every
  Python float is one of these.  Only [int(x)] and [bool(x)] are taken
  of a float, and both are exact. *)
Inductive float :=
| Finite (m e : Z)
| Infinite (negative : bool)
| NaN.

(** The values a decoded JSON event can hold. *)
Inductive obj :=
| PNone
| PBool (b : bool)
| PInt (z : Z)
| PFloat (f : float)
| PStr (s : string)
| PList (l : list obj)
| PDict (d : list (string * obj)).

(** Exceptions raised by the module's own statements; all are
  subclasses of [Exception]. *)
Inductive Exn :=
| KeyError (key : string)
| ValueError
| TypeError
| OverflowError.

(** What a request to the control plane raises: botocore's
  [ClientError], or any other [Exception]; [msg] is [str(e)]. *)
Inductive ApiError :=
| ClientError (msg : string)
| OtherError (msg : string).

(** [str(e)]. *)
Definition str_api (e : ApiError) : string :=
match e with
| ClientError m | OtherError m => m
end.

Inductive Result (A : Type) :=
| Return (a : A)
| Raise (e : Exn).
Arguments Return {A} a.
Arguments Raise {A} e.

(** [d[k]] and [k in d] on a dictionary given by its items. *)
Fixpoint dict_get (d : list (string * obj)) (k : string) : option obj :=
match d with
| [] => None
| (k', v) :: d' => if str_eqb k' k then Some v else dict_get d' k
end.

(** [bool(x)]. *)
Definition truthy (x : obj) : bool :=
match x with
| PNone => false
| PBool b => b
| PInt z => negb (z =? 0)
| PFloat (Finite m _) => negb (m =? 0)
| PFloat _ => true
| PStr s => negb (str_eqb s "")
| PList l => match l with [] => false | _ => true end
| PDict d => match d with [] => false | _ => true end
end.

(** Truthiness of the result of [os.getenv]: [None] and the empty string
  are false. *)
Definition truthy_opt_str (o : option string) : bool :=
match o with
| None => false
| Some s => negb (str_eqb s "")
end.

Section Int.
(** [int(s)] for a string argument is the interpreter's own parser: it
  is a parameter of the development. [None] stands for [ValueError]. *)
Variable int_of_str : string -> option Z.

(** [int(x)]. *)
Definition int (x : obj) : Result Z :=
match x with
| PNone | PList _ | PDict _ => Raise TypeError
| PBool b => Return (if b then 1 else 0)
| PInt z => Return z
| PFloat (Finite m e) =>
    Return (if 0 <=? e then m * 2 ^ e else Z.quot m (2 ^ (- e)))
| PFloat (Infinite _) => Raise OverflowError
| PFloat NaN => Raise ValueError
| PStr s =>
    match int_of_str s with
    | Some z => Return z
    | None => Raise ValueError
    end
end.
End Int.

(** An aware or naive [datetime]: the wall-clock reading in microseconds
  since 0001-01-01T00:00:00, and the UTC offset of its [tzinfo] in
  microseconds ([None] for a naive value). *)
Record datetime := { wall : Z; tzinfo : option Z }.

(** [d.replace(tzinfo=timezone.utc)]. *)
Definition replace_tz_utc (d : datetime) : datetime :=
{| wall := wall d; tzinfo := Some 0 |}.

(** Lines 126 to 128 of [should_delete_snapshot]: a naive value is taken
  to be in UTC. *)
Definition assume_utc (d : datetime) : datetime :=
match tzinfo d with
| None => replace_tz_utc d
| Some _ => d
end.

(** The instant an aware value denotes. *)
Definition instant (d : datetime) : Z := wall d - default 0 (tzinfo d).

(** [a > b]: two aware values are ordered by instant, two naive ones by
  reading, and a naive value does not compare with an aware one. *)
Definition dt_gt (a b : datetime) : Result bool :=
match tzinfo a, tzinfo b with
| Some _, Some _ => Return (instant b <? instant a)
| None, None => Return (wall b <? wall a)
| _, _ => Raise TypeError
end.

(** Microseconds in a day, and the first reading beyond [datetime.max]
  (9999-12-31 is day 3652059). *)
Definition us_per_day : Z := 86400000000.
Definition max_wall : Z := 3652059 * us_per_day.

(** [timedelta(days=n)] accepts at most 999999999 days either way. *)
Definition max_delta_days : Z := 999999999.

End Py.

Import Py.

(* ===================================================================== *)
(** ** Records of the inventory service *)
(* ===================================================================== *)

(** One entry of a snapshot's ["Tags"] list; either key of the entry may
    be missing. *)
Record Tag := { tag_Key : option string; tag_Value : option string }.

(** The value stored under ["StartTime"]: a [datetime], or anything
    else ([None], a string, ...), which is all [isinstance] tells. *)
Inductive TimeValue :=
| IsDatetime (d : datetime)
| NotDatetime.

(** A snapshot record is a dictionary; a field is [None] when the key is
    missing. ["Tags"] may also be present and empty. *)
Record Snapshot := {
  SnapshotId : option string;
  StartTime : option TimeValue;
  State : option string;
  Tags : option (list Tag);
  VolumeSize : option Z;
  Description : option string
}.

(** One page of [describe_snapshots]. *)
Record Page := { Snapshots : option (list Snapshot) }.

(** One image of a [describe_images] response, and the response. *)
Record Image := { ImageId : option string }.
Record ImagesResponse := { Images : option (list Image) }.

(** The module constants of lines 39 to 42. *)
Record Config := {
  RETENTION_DAYS : Z;
  DRY_RUN : bool;
  EXCLUDE_TAG_KEY : string;
  EXCLUDE_TAG_VALUE : string
}.

(** The [stats] dictionary of [handler]. *)
Record Stats := {
  total_scanned : Z;
  eligible : Z;
  deleted : Z;
  skipped : Z;
  errors : Z;
  skipped_reasons : gmap string Z
}.

(* ===================================================================== *)
(** ** Collaborators, trace and state *)
(* ===================================================================== *)

(** Every call of [logger], by call site. *)
Inductive LogRecord :=
| LogStsFailed
| LogReferenced (snapshot_id : string) (image_ids : list (option string))
| LogDescribeFailed (snapshot_id : string) (e : ApiError)
| LogDescribeUnexpected (snapshot_id : string) (e : ApiError)
| LogDeleteClientError (snapshot_id : option string) (e : ApiError)
| LogDeleteUnexpected (snapshot_id : option string) (e : ApiError)
| LogInvalidRetention (v : obj)
| LogStarting (retention_days : Z) (dry_run : bool) (key value : string)
| LogCutoff (iso : string)
| LogSkip (snap_id : option string) (reason : string)
| LogEligible (snap_id : option string) (size_gb : option Z)
              (start_time : option TimeValue) (description : string)
| LogWouldDelete (snap_id : option string)
| LogDeleted (snap_id : option string)
| LogDeleteFailed (snap_id : option string) (msg : string)
| LogUnhandled (snap_id : option string) (e : Exn)
| LogCompleted (scanned elig del skip err : Z)
| LogSkippedReasons (reasons : gmap string Z).

(** What the run does to the outside, in order. *)
Inductive Event :=
| GetCallerIdentity
| DescribeImages (owners : list (option string)) (snapshot_id : string)
| DeleteSnapshot (snapshot_id : option string)
| Log (r : LogRecord).

Inductive DescribeOutcome :=
| DescribeReturns (resp : ImagesResponse)
| DescribeRaises (e : ApiError).

Inductive DeleteOutcome :=
| DeleteReturns
| DeleteRaises (e : ApiError).

(** The control plane. Each answer may depend on everything the run has
    done before the request, so any sequence of answers is some [Cloud].
    For STS, [None] is a failure of any kind (the call, or a response
    without ["Account"]). [ec2_describe_snapshots] is the finite list of
    pages the paginator delivers for the given [OwnerIds]. *)
Record Cloud := {
  sts_account : list Event -> option string;
  ec2_describe_images :
    list Event -> list (option string) -> string -> DescribeOutcome;
  ec2_delete_snapshot : list Event -> option string -> DeleteOutcome;
  ec2_describe_snapshots : list Event -> list (option string) -> list Page
}.

(** The mutable state of one invocation: the module global
    [_account_id], the [stats] dictionary, and the trace. *)
Record St := {
  account_id : option string;
  stats : Stats;
  trace : list Event
}.

Definition set_account (a : option string) (s : St) : St :=
  {| account_id := a; stats := stats s; trace := trace s |}.
Definition set_stats (f : Stats -> Stats) (s : St) : St :=
  {| account_id := account_id s; stats := f (stats s); trace := trace s |}.
Definition emit (e : Event) (s : St) : St :=
  {| account_id := account_id s; stats := stats s; trace := trace s ++ [e] |}.

(** *** The monad: state that survives an exception *)

Definition M (A : Type) : Type := St -> Result A * St.

Definition ret {A} (a : A) : M A := fun s => (Return a, s).
Definition bind {A B} (c : M A) (k : A -> M B) : M B :=
  fun s => match c s with
           | (Return a, s') => k a s'
           | (Raise e, s') => (Raise e, s')
           end.
(** [try: body except Exception as e: h e]. *)
Definition try_except {A} (body : M A) (h : Exn -> M A) : M A :=
  fun s => match body s with
           | (Return a, s') => (Return a, s')
           | (Raise e, s') => h e s'
           end.
Definition update (f : St -> St) : M unit := fun s => (Return tt, f s).
Definition read {A} (f : St -> A) : M A := fun s => (Return (f s), s).
Definition lift {A} (r : Result A) : M A := fun s => (r, s).

Declare Scope py_scope.
Delimit Scope py_scope with py.
Notation "x <~ c ;; k" := (bind c (fun x => k))
  (at level 100, c at next level, right associativity) : py_scope.
Notation "c ;;; k" := (bind c (fun _ => k))
  (at level 100, right associativity) : py_scope.
Local Open Scope py_scope.

Definition log (r : LogRecord) : M unit := update (emit (Log r)).

(* ===================================================================== *)
(** ** The module *)
(* ===================================================================== *)

(** [d[key]] on a record field: [KeyError] when the key is missing. *)
Definition subscript {A} (key : string) (field : option A) : Result A :=
  match field with
  | Some v => Return v
  | None => Raise (KeyError key)
  end.

Definition zero_stats : Stats :=
  {| total_scanned := 0; eligible := 0; deleted := 0; skipped := 0;
     errors := 0; skipped_reasons := ∅ |}.

(** The state at the start of an invocation; [a] is what an earlier
    invocation in the same process left in [_account_id]. *)
Definition initial (a : option string) : St :=
  {| account_id := a; stats := zero_stats; trace := [] |}.

(** The five updates of [stats] in the loop. *)
Definition count_scanned (t : Stats) : Stats :=
  {| total_scanned := total_scanned t + 1; eligible := eligible t;
     deleted := deleted t; skipped := skipped t; errors := errors t;
     skipped_reasons := skipped_reasons t |}.
Definition count_skipped (reason : string) (t : Stats) : Stats :=
  {| total_scanned := total_scanned t; eligible := eligible t;
     deleted := deleted t; skipped := skipped t + 1; errors := errors t;
     skipped_reasons :=
       <[reason := default 0 (skipped_reasons t !! reason) + 1]>
         (skipped_reasons t) |}.
Definition count_eligible (t : Stats) : Stats :=
  {| total_scanned := total_scanned t; eligible := eligible t + 1;
     deleted := deleted t; skipped := skipped t; errors := errors t;
     skipped_reasons := skipped_reasons t |}.
Definition count_deleted (t : Stats) : Stats :=
  {| total_scanned := total_scanned t; eligible := eligible t;
     deleted := deleted t + 1; skipped := skipped t; errors := errors t;
     skipped_reasons := skipped_reasons t |}.
Definition count_error (t : Stats) : Stats :=
  {| total_scanned := total_scanned t; eligible := eligible t;
     deleted := deleted t; skipped := skipped t; errors := errors t + 1;
     skipped_reasons := skipped_reasons t |}.

(** [for x in l: body x]. *)
Fixpoint for_each {A} (body : A -> M unit) (l : list A) : M unit :=
  match l with
  | [] => ret tt
  | x :: l' => body x ;;; for_each body l'
  end.

Section Module.
(** Interpreter and library functions the module calls. *)
Variable int_of_str : string -> option Z.
Variable isoformat : datetime -> string.

(** [os.getenv]. *)
Variable env : gmap string string.

(** Lines 30 to 37. *)
Definition get_env_int (name : string) (dflt : Z) : Result Z :=
  match env !! name with
  | None => Return dflt
  | Some v =>
      match int_of_str v with
      | Some z => Return z
      | None => Raise ValueError
      end
  end.

(** Lines 39 to 42: the constants, or the [ValueError] of
    [get_env_int]. The other statements run at import, the client of
    line 26 and [logger.setLevel] of line 47, are not modelled. The
    environment the module is loaded in is the one the handler reads
    later. *)
Definition module_constants : Result Config :=
  match get_env_int "RETENTION_DAYS" 30 with
  | Raise e => Raise e
  | Return days =>
      Return
        {| RETENTION_DAYS := days;
           DRY_RUN := str_in (lower (default "true" (env !! "DRY_RUN")))
                        ["1"; "true"; "yes"; "y"];
           EXCLUDE_TAG_KEY := default "Keep" (env !! "EXCLUDE_TAG_KEY");
           EXCLUDE_TAG_VALUE := default "true" (env !! "EXCLUDE_TAG_VALUE") |}
  end.

Variable cfg : Config.
Variable cloud : Cloud.

(** [datetime.now(timezone.utc)], as a wall-clock reading. *)
Variable now : Z.

(** Lines 49 to 60. *)
Definition get_account_id : M (option string) :=
  cached <~ read account_id ;;
  if truthy_opt_str cached then ret cached
  else
    history <~ read trace ;;
    update (emit GetCallerIdentity) ;;;
    match sts_account cloud history with
    | Some acct => update (set_account (Some acct)) ;;; ret (Some acct)
    | None => log LogStsFailed ;;; ret None
    end.

(** Lines 62 to 70. *)
Fixpoint has_exclude_tag (tags : list Tag) : bool :=
  match tags with
  | [] => false
  | t :: tags' =>
      if bool_decide (tag_Key t = Some (EXCLUDE_TAG_KEY cfg)) then
        if str_eqb (EXCLUDE_TAG_VALUE cfg) ""
           || str_eqb (lower (default "" (tag_Value t)))
                      (lower (EXCLUDE_TAG_VALUE cfg))
        then true
        else has_exclude_tag tags'
      else has_exclude_tag tags'
  end.

Definition snapshot_has_exclude_tag (snapshot : Snapshot) : bool :=
  has_exclude_tag (default [] (Tags snapshot)).

(** Line 78: the conditional expression for [Owners] asks for the
    account id once for its test and once more for its value. *)
Definition image_owners : M (list (option string)) :=
  test <~ get_account_id ;;
  if truthy_opt_str test
  then acct <~ get_account_id ;; ret [acct]
  else ret [Some "self"].

(** Lines 72 to 95. Both [except] clauses answer [True]. *)
Definition snapshot_used_by_any_ami (snapshot_id : string) : M bool :=
  owners <~ image_owners ;;
  history <~ read trace ;;
  update (emit (DescribeImages owners snapshot_id)) ;;;
  match ec2_describe_images cloud history owners snapshot_id with
  | DescribeReturns resp =>
      let images := default [] (Images resp) in
      match images with
      | _ :: _ =>
          log (LogReferenced snapshot_id (map ImageId images)) ;;;
          ret true
      | [] => ret false
      end
  | DescribeRaises (ClientError m) =>
      log (LogDescribeFailed snapshot_id (ClientError m)) ;;; ret true
  | DescribeRaises (OtherError m) =>
      log (LogDescribeUnexpected snapshot_id (OtherError m)) ;;; ret true
  end.

(** Lines 97 to 108: the generator, drained. The pages are those the
    paginator delivers. A page request that raises is not part of this
    model: in the source the generator is iterated by the loop header,
    outside the [try] of the loop body, so that it would end the
    handler. *)
Definition list_owned_snapshots : M (list Snapshot) :=
  owner_id <~ get_account_id ;;
  history <~ read trace ;;
  let owner_ids :=
    if truthy_opt_str owner_id then [owner_id] else [Some "self"] in
  ret (concat (map (fun page => default [] (Snapshots page))
                   (ec2_describe_snapshots cloud history owner_ids))).

(** Lines 110 to 139. *)
Definition should_delete_snapshot (snapshot : Snapshot)
    (cutoff_dt : datetime) : M (bool * string) :=
  snap_id <~ lift (subscript "SnapshotId" (SnapshotId snapshot)) ;;
  start_time <~ lift (subscript "StartTime" (StartTime snapshot)) ;;
  let state := lower (default "" (State snapshot)) in
  if negb (str_eqb state "completed") then
    ret (false, "state=" +:+ state)
  else
    match start_time with
    | NotDatetime => ret (false, "no start time")
    | IsDatetime d =>
        let start_time := assume_utc d in
        younger <~ lift (dt_gt start_time cutoff_dt) ;;
        if younger : bool then
          ret (false,
               "age less than retention (" +:+ isoformat start_time +:+ ")")
        else if snapshot_has_exclude_tag snapshot then
          ret (false,
               "excluded by tag " +:+ EXCLUDE_TAG_KEY cfg +:+ "="
               +:+ EXCLUDE_TAG_VALUE cfg)
        else
          used <~ snapshot_used_by_any_ami snap_id ;;
          if used then ret (false, "referenced by AMI")
          else ret (true, "eligible")
    end.

(** Lines 141 to 152. *)
Definition delete_snapshot (snapshot_id : option string)
    : M (bool * string) :=
  history <~ read trace ;;
  update (emit (DeleteSnapshot snapshot_id)) ;;;
  match ec2_delete_snapshot cloud history snapshot_id with
  | DeleteReturns => ret (true, "deleted")
  | DeleteRaises (ClientError m) =>
      log (LogDeleteClientError snapshot_id (ClientError m)) ;;;
      ret (false, str_api (ClientError m))
  | DeleteRaises (OtherError m) =>
      log (LogDeleteUnexpected snapshot_id (OtherError m)) ;;;
      ret (false, str_api (OtherError m))
  end.

(** Lines 154 to 158. Both the [timedelta] and the subtraction raise
    [OverflowError] out of range. *)
Definition build_cutoff (retention_days : Z) : Result datetime :=
  if max_delta_days <? Z.abs retention_days then Raise OverflowError
  else
    let w := now - retention_days * us_per_day in
    if (0 <=? w) && (w <? max_wall)
    then Return {| wall := w; tzinfo := Some 0 |}
    else Raise OverflowError.

(** Lines 168 to 177: the effective retention and dry-run flag. *)
Definition resolve_retention_days (event : obj) : M Z :=
  match event with
  | PDict d =>
      match dict_get d "retention_days" with
      | Some v =>
          if negb (truthy_opt_str (env !! "RETENTION_DAYS")) then
            try_except (lift (int int_of_str v))
              (fun _ => log (LogInvalidRetention v) ;;;
                        ret (RETENTION_DAYS cfg))
          else ret (RETENTION_DAYS cfg)
      | None => ret (RETENTION_DAYS cfg)
      end
  | _ => ret (RETENTION_DAYS cfg)
  end.

Definition resolve_dry_run (event : obj) : bool :=
  match event with
  | PDict d =>
      match dict_get d "dry_run" with
      | Some v =>
          if negb (truthy_opt_str (env !! "DRY_RUN")) then truthy v
          else DRY_RUN cfg
      | None => DRY_RUN cfg
      end
  | _ => DRY_RUN cfg
  end.

(** The value [resolve_retention_days] computes; it does not depend on
    the state it is run in. *)
Definition effective_retention_days (event : obj) : Z :=
  match fst (resolve_retention_days event (initial None)) with
  | Return days => days
  | Raise _ => RETENTION_DAYS cfg
  end.

(** Lines 195 to 226: the body of the loop. *)
Definition process_snapshot (cutoff : datetime) (dry_run : bool)
    (snap : Snapshot) : M unit :=
  update (set_stats count_scanned) ;;;
  let snap_id := SnapshotId snap in
  try_except
    (verdict <~ should_delete_snapshot snap cutoff ;;
     let '(is_eligible, reason) := verdict in
     if negb is_eligible then
       update (set_stats (count_skipped reason)) ;;;
       log (LogSkip snap_id reason)
     else
       update (set_stats count_eligible) ;;;
       log (LogEligible snap_id (VolumeSize snap) (StartTime snap)
              (default "" (Description snap))) ;;;
       if dry_run then log (LogWouldDelete snap_id)
       else
         outcome <~ delete_snapshot snap_id ;;
         let '(ok, msg) := outcome in
         if ok then
           update (set_stats count_deleted) ;;; log (LogDeleted snap_id)
         else
           update (set_stats count_error) ;;;
           log (LogDeleteFailed snap_id msg))
    (fun exc =>
       log (LogUnhandled snap_id exc) ;;;
       update (set_stats count_error)).

(** Lines 185 to 233: the run proper, for a given cutoff and flag. *)
Definition run (cutoff : datetime) (dry_run : bool) : M Stats :=
  update (set_stats (fun _ => zero_stats)) ;;;
  snaps <~ list_owned_snapshots ;;
  for_each (process_snapshot cutoff dry_run) snaps ;;;
  t <~ read stats ;;
  log (LogCompleted (total_scanned t) (eligible t) (deleted t)
         (skipped t) (errors t)) ;;;
  log (LogSkippedReasons (skipped_reasons t)) ;;;
  ret t.

(** Lines 160 to 233. *)
Definition handler (event : obj) : M Stats :=
  retention_days <~ resolve_retention_days event ;;
  let dry_run := resolve_dry_run event in
  log (LogStarting retention_days dry_run (EXCLUDE_TAG_KEY cfg)
         (EXCLUDE_TAG_VALUE cfg)) ;;;
  cutoff <~ lift (build_cutoff retention_days) ;;
  log (LogCutoff (isoformat cutoff)) ;;;
  run cutoff dry_run.

End Module.

(* ===================================================================== *)
(** ** [rds_automation_lambda.py] *)
(* ===================================================================== *)

Module Rds.

(** One entry of ["DBInstances"] and one entry of a ["TagList"]; a field
    is [None] when the key is missing. *)
Record DbInstance := {
  DBInstanceArn : option string;
  DBInstanceIdentifier : option string
}.
Record TagEntry := { Key : option string; Value : option string }.

(** What can go wrong: a subscript on a missing key, or a request that
    raises (with [str(e)]). Both are subclasses of [Exception]. *)
Inductive Error :=
| MissingKey (key : string)
| ApiFailure (msg : string).

Inductive Fetched (A : Type) :=
| Got (a : A)
| Failed (e : Error).
Arguments Got {A} a.
Arguments Failed {A} e.

(** Requests and log records, in order. *)
Inductive Event :=
| DescribeDbInstances
| ListTagsForResource (arn : string)
| StartDbInstance (id : string)
| StopDbInstance (id : string)
| LogFetchError (e : Error)
| LogStarting (id : string)
| LogStopping (id : string)
| LogStoppingWeekend (id : string).

(** The RDS client. An answer may depend on everything done before the
    request. The two reads give the value under ["DBInstances"] and
    under ["TagList"], or the failure of the request or of that
    subscript; the two actions give the exception, if any. *)
Record Service := {
  describe_db_instances : list Event -> Fetched (list DbInstance);
  list_tags_for_resource : list Event -> string -> Fetched (list TagEntry);
  start_db_instance : list Event -> string -> option Error;
  stop_db_instance : list Event -> string -> option Error
}.

(** [REQUIRED_TAGS], a dictionary with the one entry
    [TAG_KEY: TAG_VALUE]. *)
Record Settings := { TAG_KEY : string; TAG_VALUE : string }.

(** What the handler returns or raises. *)
Inductive Outcome :=
| Completed (msg : string)
| Raised (e : Error).

(** Line 42, the dictionary comprehension: a later entry replaces an
    earlier one with the same key. *)
Fixpoint tag_dict_from (tags : list TagEntry) (d : gmap string string)
    : Fetched (gmap string string) :=
  match tags with
  | [] => Got d
  | t :: rest =>
      match Key t with
      | None => Failed (MissingKey "Key")
      | Some k =>
          match Value t with
          | None => Failed (MissingKey "Value")
          | Some v => tag_dict_from rest (<[k := v]> d)
          end
      end
  end.

Definition tag_dict (tags : list TagEntry) : Fetched (gmap string string) :=
  tag_dict_from tags ∅.

Section Functions.
Variable settings : Settings.
Variable rds : Service.

(** [datetime.now(tz=TIMEZONE)]: its [hour] and its [weekday()]. *)
Variable current_hour : Z.
Variable current_day : Z.

(** Line 44: [all(...)] over the one required key. *)
Definition required_tags_match (d : gmap string string) : bool :=
  str_eqb (TAG_VALUE settings) (default "" (d !! TAG_KEY settings)).

(** Lines 38 to 45: the loop, inside the [try]. *)
Fixpoint collect (instances : list DbInstance) (tagged_instances : list string)
    (tr : list Event) : Fetched (list string) * list Event :=
  match instances with
  | [] => (Got tagged_instances, tr)
  | db :: rest =>
      match DBInstanceArn db with
      | None => (Failed (MissingKey "DBInstanceArn"), tr)
      | Some arn =>
          let tr1 := tr ++ [ListTagsForResource arn] in
          match list_tags_for_resource rds tr arn with
          | Failed e => (Failed e, tr1)
          | Got tags =>
              match tag_dict tags with
              | Failed e => (Failed e, tr1)
              | Got d =>
                  if required_tags_match d then
                    match DBInstanceIdentifier db with
                    | None => (Failed (MissingKey "DBInstanceIdentifier"), tr1)
                    | Some id => collect rest (tagged_instances ++ [id]) tr1
                    end
                  else collect rest tagged_instances tr1
              end
          end
      end
  end.

(** Lines 32 to 49. *)
Definition get_tagged_rds_instances (tr : list Event)
    : list string * list Event :=
  let tr1 := tr ++ [DescribeDbInstances] in
  match describe_db_instances rds tr with
  | Failed e => ([], tr1 ++ [LogFetchError e])
  | Got instances =>
      match collect instances [] tr1 with
      | (Got tagged_instances, tr2) => (tagged_instances, tr2)
      | (Failed e, tr2) => ([], tr2 ++ [LogFetchError e])
      end
  end.

(** Lines 58 to 68: the loop; a request that raises ends it. *)
Fixpoint manage (identifiers : list string) (tr : list Event)
    : option Error * list Event :=
  match identifiers with
  | [] => (None, tr)
  | db_identifier :: rest =>
      if (0 <=? current_day) && (current_day <=? 4) then
        if (6 <=? current_hour) && (current_hour <? 18) then
          let tr1 := tr ++ [LogStarting db_identifier] in
          let tr2 := tr1 ++ [StartDbInstance db_identifier] in
          match start_db_instance rds tr1 db_identifier with
          | Some e => (Some e, tr2)
          | None => manage rest tr2
          end
        else
          let tr1 := tr ++ [LogStopping db_identifier] in
          let tr2 := tr1 ++ [StopDbInstance db_identifier] in
          match stop_db_instance rds tr1 db_identifier with
          | Some e => (Some e, tr2)
          | None => manage rest tr2
          end
      else
        let tr1 := tr ++ [LogStoppingWeekend db_identifier] in
        let tr2 := tr1 ++ [StopDbInstance db_identifier] in
        match stop_db_instance rds tr1 db_identifier with
        | Some e => (Some e, tr2)
        | None => manage rest tr2
        end
  end.

(** Lines 50 to 69. *)
Definition lambda_handler : Outcome * list Event :=
  let '(tagged_rds_instances, tr) := get_tagged_rds_instances [] in
  match manage tagged_rds_instances tr with
  | (None, tr') => (Completed "Lambda execution completed.", tr')
  | (Some e, tr') => (Raised e, tr')
  end.

End Functions.

(** The instance a start or stop request is for. *)
Definition target (e : Event) : option string :=
  match e with
  | StartDbInstance id | StopDbInstance id => Some id
  | _ => None
  end.

(** The instances acted on, in order. *)
Definition targets (tr : list Event) : list string :=
  omap target tr.

(** Weekdays from 6 to before 18. *)
Definition business_hours (current_hour current_day : Z) : Prop :=
  0 <= current_day <= 4 /\ 6 <= current_hour < 18.

(** What the schedule allows an event to be. *)
Definition scheduled (current_hour current_day : Z) (e : Event) : Prop :=
  match e with
  | StartDbInstance _ => business_hours current_hour current_day
  | StopDbInstance _ => ~ business_hours current_hour current_day
  | _ => True
  end.

(** A control plane whose answers do not change, for the examples. *)
Definition steady (instances : Fetched (list DbInstance))
    (tags : string -> Fetched (list TagEntry))
    (start stop : string -> option Error) : Service :=
  {| describe_db_instances := fun _ => instances;
     list_tags_for_resource := fun _ arn => tags arn;
     start_db_instance := fun _ id => start id;
     stop_db_instance := fun _ id => stop id |}.

Definition production : Settings :=
  {| TAG_KEY := "Environment"; TAG_VALUE := "Production" |}.

Definition db (name : string) : DbInstance :=
  {| DBInstanceArn := Some ("arn:aws:rds:" +:+ name);
     DBInstanceIdentifier := Some name |}.

Definition tag (k v : string) : TagEntry := {| Key := Some k; Value := Some v |}.

(** Tags per ARN for the examples: instance [a] is in production,
    instance [b] was retagged for development. *)
Definition sample_tags (arn : string) : list TagEntry :=
  if str_eqb arn "arn:aws:rds:a"
  then [tag "Environment" "Production"]
  else [tag "Environment" "Production"; tag "Environment" "Dev"].

(** The same service, except that the tags of instance [b] cannot be
    read. *)
Definition sample_tags_denied (arn : string) : Fetched (list TagEntry) :=
  if str_eqb arn "arn:aws:rds:b"
  then Failed (ApiFailure "AccessDenied")
  else Got (sample_tags arn).

End Rds.

(* ===================================================================== *)
(** ** [ebs_snapshot_creation.py] *)
(* ===================================================================== *)

Module SnapshotCreation.

Definition SNS_TOPIC_ARN : string :=
  "arn:aws:sns:us-west-2:123456789012:MyEBSSnapshots".

(** A subscript on a missing key, or a request that raises. *)
Inductive Error :=
| MissingKey (key : string)
| ApiFailure (msg : string).

(** The two requests, with their arguments. *)
Inductive Event :=
| CreateSnapshot (volume_id description : string)
| Publish (topic_arn message subject : string).

(** The EC2 resource and the SNS client: the id of the new snapshot and
    the response of [publish], or what the request raises. *)
Record Service (Response : Type) := {
  create_snapshot : list Event -> string -> string -> Error + string;
  publish : list Event -> string -> string -> string -> Error + Response
}.
Arguments create_snapshot {Response} _ _ _ _.
Arguments publish {Response} _ _ _ _ _.

(** The event: a dictionary that may lack ["volume_ids"]. *)
Record Request := { volume_ids : option (list string) }.

Section Functions.
Context {Response : Type}.
Variable aws : Service Response.

(** [str(datetime.datetime.now())] at the time of a call. *)
Variable now_text : list Event -> string.

(** Lines 7 to 22. *)
Definition create_snapshot_and_notify (volume_id : string) (tr : list Event)
    : (Error + Response) * list Event :=
  let description :=
    "Snapshot of " +:+ volume_id +:+ " on " +:+ now_text tr in
  let tr1 := tr ++ [CreateSnapshot volume_id description] in
  match create_snapshot aws tr volume_id description with
  | inl e => (inl e, tr1)
  | inr snapshot_id =>
      let message :=
        "Snapshot " +:+ snapshot_id +:+ " created for volume " +:+ volume_id in
      let tr2 := tr1 ++ [Publish SNS_TOPIC_ARN message "EBS Snapshot Created"] in
      (publish aws tr1 SNS_TOPIC_ARN message "EBS Snapshot Created", tr2)
  end.

(** Lines 27 and 28. *)
Fixpoint notify_all (ids : list string) (tr : list Event)
    : option Error * list Event :=
  match ids with
  | [] => (None, tr)
  | volume_id :: rest =>
      match create_snapshot_and_notify volume_id tr with
      | (inl e, tr') => (Some e, tr')
      | (inr _, tr') => notify_all rest tr'
      end
  end.

(** Lines 24 to 28: [None] when the handler returns, or what it
    raises. *)
Definition lambda_handler (event : Request) : option Error * list Event :=
  match volume_ids event with
  | None => (Some (MissingKey "volume_ids"), [])
  | Some ids => notify_all ids []
  end.

End Functions.

End SnapshotCreation.

(* ===================================================================== *)
(** ** Vocabulary of the statements *)
(* ===================================================================== *)

(** The sum of the counters of a dictionary such as [skipped_reasons]. *)
Definition sum_counts (m : gmap string Z) : Z :=
  map_fold (fun _ v acc => v + acc) 0 m.

(** The number of records on the pages of a listing. *)
Definition page_records (pages : list Page) : nat :=
  sum_list_with (fun page => length (default [] (Snapshots page))) pages.

(** The five ways one pass of the loop body changes [stats]. *)
Inductive counted (t : Stats) : Stats -> Prop :=
| counted_skip reason :
    counted t (count_skipped reason (count_scanned t))
| counted_would_delete :
    counted t (count_eligible (count_scanned t))
| counted_deleted :
    counted t (count_deleted (count_eligible (count_scanned t)))
| counted_delete_failed :
    counted t (count_error (count_eligible (count_scanned t)))
| counted_unhandled :
    counted t (count_error (count_scanned t)).

(** [n] passes. *)
Inductive tally : nat -> Stats -> Stats -> Prop :=
| tally_done t : tally 0 t t
| tally_pass n t t1 t2 : counted t t1 -> tally n t1 t2 -> tally (S n) t t2.

(** An event other than a delete request. *)
Definition not_delete (e : Event) : Prop :=
  match e with
  | DeleteSnapshot _ => False
  | _ => True
  end.

(** The trace of [s'] is the trace of [s] and then events that all
    satisfy [P]. *)
Definition trace_adds (P : Event -> Prop) (s s' : St) : Prop :=
  exists evs, trace s' = trace s ++ evs /\ Forall P evs.

(** The same, with [stats] untouched. *)
Definition adds_only (P : Event -> Prop) (s s' : St) : Prop :=
  stats s' = stats s /\ trace_adds P s s'.

(** A log record or an STS request: what resolving the account id may
    add to the trace. *)
Definition is_identity (e : Event) : Prop :=
  match e with
  | GetCallerIdentity | Log _ => True
  | _ => False
  end.

(** A log record. *)
Definition is_log (e : Event) : Prop :=
  match e with
  | Log _ => True
  | _ => False
  end.

Definition is_describe (e : Event) : bool :=
  match e with
  | DescribeImages _ _ => true
  | _ => false
  end.

Definition is_delete (e : Event) : bool :=
  match e with
  | DeleteSnapshot _ => true
  | _ => false
  end.

(** The number of events of a trace that [p] accepts. *)
Fixpoint count_events (p : Event -> bool) (tr : list Event) : Z :=
  match tr with
  | [] => 0
  | e :: tr' => (if p e then 1 else 0) + count_events p tr'
  end.

(** A record with the two keys the check reads by subscript. *)
Definition has_keys (snapshot : Snapshot) : Prop :=
  is_Some (SnapshotId snapshot) /\ is_Some (StartTime snapshot).

(** The records of a listing. *)
Definition records (pages : list Page) : list Snapshot :=
  concat (map (fun page => default [] (Snapshots page)) pages).

(** One pass of the loop body in full: the change of [stats], and the
    numbers of [describe_images] and [delete_snapshot] requests it adds
    to the trace. [dry] is the dry-run flag and [sound] says that the
    record has both keys and the cutoff is aware. *)
Inductive audited (dry : bool) (sound : Prop) (t : Stats)
  : Stats -> Z -> Z -> Prop :=
| audited_skip reason :
    reason <> "eligible" -> reason <> "referenced by AMI" ->
    audited dry sound t (count_skipped reason (count_scanned t)) 0 0
| audited_referenced :
    audited dry sound t
      (count_skipped "referenced by AMI" (count_scanned t)) 1 0
| audited_would_delete :
    dry = true ->
    audited dry sound t (count_eligible (count_scanned t)) 1 0
| audited_deleted :
    dry = false ->
    audited dry sound t
      (count_deleted (count_eligible (count_scanned t))) 1 1
| audited_delete_failed :
    dry = false ->
    audited dry sound t
      (count_error (count_eligible (count_scanned t))) 1 1
| audited_unhandled :
    ~ sound ->
    audited dry sound t (count_error (count_scanned t)) 0 0.

(** The identifier of an instance when its tags, as [tags_of] gives them
    for its ARN, match the required tag. *)
Definition rds_selected (settings : Rds.Settings)
    (tags_of : string -> list Rds.TagEntry) (db : Rds.DbInstance)
    : option string :=
  match Rds.DBInstanceArn db, Rds.DBInstanceIdentifier db with
  | Some arn, Some id =>
      match Rds.tag_dict (tags_of arn) with
      | Rds.Got d =>
          if Rds.required_tags_match settings d then Some id else None
      | Rds.Failed _ => None
      end
  | _, _ => None
  end.

(** An instance with both keys whose tag entries all have both keys. *)
Definition rds_readable (tags_of : string -> list Rds.TagEntry)
    (db : Rds.DbInstance) : Prop :=
  exists arn id d,
    Rds.DBInstanceArn db = Some arn /\
    Rds.DBInstanceIdentifier db = Some id /\
    Rds.tag_dict (tags_of arn) = Rds.Got d.

(** What the service answers to a start or stop request made after
    [history]: the exception it raises, if any. *)
Definition rds_answer (rds : Rds.Service) (history : list Rds.Event)
    (e : Rds.Event) : option Rds.Error :=
  match e with
  | Rds.StartDbInstance id => Rds.start_db_instance rds history id
  | Rds.StopDbInstance id => Rds.stop_db_instance rds history id
  | _ => None
  end.

(** From trace [tr] to trace [tr'], the instances [ids] got, each in
    turn, one log record and then one start or stop request, and every
    one of these requests returned. *)
Inductive rds_served (rds : Rds.Service)
  : list string -> list Rds.Event -> list Rds.Event -> Prop :=
| rds_served_none tr : rds_served rds [] tr tr
| rds_served_next id ids tr log request tr' :
    Rds.target log = None ->
    Rds.target request = Some id ->
    rds_answer rds (tr ++ [log]) request = None ->
    rds_served rds ids (tr ++ [log; request]) tr' ->
    rds_served rds (id :: ids) tr tr'.

(** The two requests the snapshot handler makes for a volume: the
    snapshot request made after [tr], and the notification that names
    the snapshot [snapshot_id]. *)
Definition snapshot_request (now_text : list SnapshotCreation.Event -> string)
    (volume_id : string) (tr : list SnapshotCreation.Event)
    : SnapshotCreation.Event :=
  SnapshotCreation.CreateSnapshot volume_id
    ("Snapshot of " +:+ volume_id +:+ " on " +:+ now_text tr).

Definition snapshot_notice (snapshot_id volume_id : string)
    : SnapshotCreation.Event :=
  SnapshotCreation.Publish SnapshotCreation.SNS_TOPIC_ARN
    ("Snapshot " +:+ snapshot_id +:+ " created for volume " +:+ volume_id)
    "EBS Snapshot Created".

(** What the services answer to an event made after [history]: the
    exception it raises, if any. *)
Definition snapshot_answer {Response : Type}
    (aws : SnapshotCreation.Service Response)
    (history : list SnapshotCreation.Event) (e : SnapshotCreation.Event)
    : option SnapshotCreation.Error :=
  match e with
  | SnapshotCreation.CreateSnapshot v d =>
      match SnapshotCreation.create_snapshot aws history v d with
      | inl err => Some err
      | inr _ => None
      end
  | SnapshotCreation.Publish topic message subject =>
      match SnapshotCreation.publish aws history topic message subject with
      | inl err => Some err
      | inr _ => None
      end
  end.

(** From trace [tr] to trace [tr'], the volumes [ids] got, each in turn,
    one snapshot request that returned an id and then one notification,
    naming that id and that volume, that was accepted. *)
Inductive snapshots_served {Response : Type}
    (aws : SnapshotCreation.Service Response)
    (now_text : list SnapshotCreation.Event -> string)
  : list string -> list SnapshotCreation.Event
    -> list SnapshotCreation.Event -> Prop :=
| snapshots_served_none tr : snapshots_served aws now_text [] tr tr
| snapshots_served_next v ids tr snapshot_id tr' :
    SnapshotCreation.create_snapshot aws tr v
      ("Snapshot of " +:+ v +:+ " on " +:+ now_text tr) = inr snapshot_id ->
    snapshot_answer aws (tr ++ [snapshot_request now_text v tr])
      (snapshot_notice snapshot_id v) = None ->
    snapshots_served aws now_text ids
      (tr ++ [snapshot_request now_text v tr; snapshot_notice snapshot_id v])
      tr' ->
    snapshots_served aws now_text (v :: ids) tr tr'.

(** The relations between the counters. *)
Definition consistent (t : Stats) : Prop :=
  deleted t <= eligible t /\
  eligible t + skipped t <= total_scanned t /\
  skipped t = sum_counts (skipped_reasons t).

(** What a run, or a handler that got as far as the run, leaves: the
    statistics after one pass per listed record, starting from zero. *)
Definition ran (cloud : Cloud) (dry_run : bool) (s : St) (t : Stats)
    (s' : St) : Prop :=
  stats s' = t /\
  (exists history owner_ids,
      tally (page_records (ec2_describe_snapshots cloud history owner_ids))
            zero_stats t) /\
  (dry_run = true -> deleted t = 0 /\ trace_adds not_delete s s').

(* ===================================================================== *)
(** ** Concrete configurations and collaborators *)
(* ===================================================================== *)

Module Sample.

(** Signed decimal numerals, as an instance of [int] on strings. *)
Definition decimal_int (s : string) : option Z :=
  Z.of_int <$> NilZero.int_of_string s.

(** A rendering of a [datetime], as an instance of [isoformat]. *)
Definition iso (d : datetime) : string :=
  pretty (wall d) +:+ match tzinfo d with
                      | Some off => "+" +:+ pretty off
                      | None => ""
                      end.

(** The constants when no variable is set. *)
Definition defaults : Config :=
  {| RETENTION_DAYS := 30; DRY_RUN := true;
     EXCLUDE_TAG_KEY := "Keep"; EXCLUDE_TAG_VALUE := "true" |}.

(** The same with deletion switched on. *)
Definition live : Config :=
  {| RETENTION_DAYS := 30; DRY_RUN := false;
     EXCLUDE_TAG_KEY := "Keep"; EXCLUDE_TAG_VALUE := "true" |}.

(** 2024-01-01T00:00:00 UTC, day 738886 of the calendar. *)
Definition new_year : Z := 738885 * us_per_day.

(** A UTC value [n] days before [new_year]. *)
Definition days_ago (n : Z) : datetime :=
  {| wall := new_year - n * us_per_day; tzinfo := Some 0 |}.

(** A completed snapshot started [n] days before [new_year]. *)
Definition completed (id : string) (n : Z) (tags : list Tag) : Snapshot :=
  {| SnapshotId := Some id; StartTime := Some (IsDatetime (days_ago n));
     State := Some "completed"; Tags := Some tags;
     VolumeSize := Some 8; Description := Some "nightly" |}.

Definition tag (k v : string) : Tag :=
  {| tag_Key := Some k; tag_Value := Some v |}.

(** A control plane that answers every request of a kind alike. *)
Definition steady (describe : DescribeOutcome) (delete : DeleteOutcome)
    (pages : list Page) : Cloud :=
  {| sts_account := fun _ => Some "123456789012";
     ec2_describe_images := fun _ _ _ => describe;
     ec2_delete_snapshot := fun _ _ => delete;
     ec2_describe_snapshots := fun _ _ => pages |}.

Definition page (snaps : list Snapshot) : Page :=
  {| Snapshots := Some snaps |}.

Definition no_images : DescribeOutcome :=
  DescribeReturns {| Images := Some [] |}.

(** One page with an old record and a young one. *)
Definition old_and_young : list Page :=
  [page [completed "snap-A" 40 []; completed "snap-G" 3 []]].

Definition one_image : DescribeOutcome :=
  DescribeReturns {| Images := Some [{| ImageId := Some "ami-0a1b" |}] |}.

(** A record in another state than completed. *)
Definition pending (id : string) (n : Z) : Snapshot :=
  {| SnapshotId := Some id; StartTime := Some (IsDatetime (days_ago n));
     State := Some "pending"; Tags := None;
     VolumeSize := Some 8; Description := None |}.

Definition denied : ApiError :=
  ClientError "UnauthorizedOperation".

Definition in_use : ApiError :=
  ClientError "InvalidSnapshot.InUse".

End Sample.

(* ===================================================================== *)
(** ** What a computation leaves behind *)
(* ===================================================================== *)

Lemma trace_adds_refl P s : trace_adds P s s.
Proof. exists []. by rewrite app_nil_r. Qed.

Lemma trace_adds_trans P s1 s2 s3 :
  trace_adds P s1 s2 -> trace_adds P s2 s3 -> trace_adds P s1 s3.
Proof.
  intros (ev1 & Ht1 & Hf1) (ev2 & Ht2 & Hf2). exists (ev1 ++ ev2). split.
  - by rewrite Ht2, Ht1, app_assoc.
  - by apply Forall_app.
Qed.

Lemma trace_adds_emit (P : Event -> Prop) e s : P e -> trace_adds P s (emit e s).
Proof. intros He. exists [e]. split; [done | by constructor]. Qed.

Lemma trace_adds_set_stats P f s : trace_adds P s (set_stats f s).
Proof. exists []. by rewrite app_nil_r. Qed.

Lemma adds_only_refl P s : adds_only P s s.
Proof. split; [done | apply trace_adds_refl]. Qed.

Lemma adds_only_trans P s1 s2 s3 :
  adds_only P s1 s2 -> adds_only P s2 s3 -> adds_only P s1 s3.
Proof.
  intros [Hs1 Ht1] [Hs2 Ht2]. split; [congruence |].
  by eapply trace_adds_trans.
Qed.

Lemma adds_only_emit (P : Event -> Prop) e s : P e -> adds_only P s (emit e s).
Proof. intros He. split; [done | by apply trace_adds_emit]. Qed.

Lemma adds_only_set_account P a s : adds_only P s (set_account a s).
Proof. split; [done | exists []; by rewrite app_nil_r]. Qed.

Ltac run_monad :=
  unfold bind, ret, update, read, lift, log, try_except; simpl.

Section Frames.
Variable isoformat : datetime -> string.
Variable cfg : Config.
Variable cloud : Cloud.

Lemma get_account_id_returns s :
  exists a s', get_account_id cloud s = (Return a, s') /\
               adds_only not_delete s s'.
Proof.
  unfold get_account_id. run_monad.
  destruct (truthy_opt_str (account_id s)).
  - eexists _, _. split; [done | apply adds_only_refl].
  - destruct (sts_account cloud (trace s)); eexists _, _; (split; [done |]).
    + eapply adds_only_trans; [by apply (adds_only_emit _ GetCallerIdentity) |].
      apply adds_only_set_account.
    + eapply adds_only_trans; [by apply (adds_only_emit _ GetCallerIdentity) |].
      by apply adds_only_emit.
Qed.

Lemma image_owners_returns s :
  exists owners s', image_owners cloud s = (Return owners, s') /\
                    adds_only not_delete s s'.
Proof.
  unfold image_owners, bind.
  destruct (get_account_id_returns s) as (a & s1 & -> & H1).
  destruct (truthy_opt_str a).
  - destruct (get_account_id_returns s1) as (a2 & s2 & -> & H2).
    eexists _, _. split; [done | by eapply adds_only_trans].
  - by eexists _, _.
Qed.

Lemma snapshot_used_by_any_ami_returns sid s :
  exists used s', snapshot_used_by_any_ami cloud sid s = (Return used, s') /\
                  adds_only not_delete s s'.
Proof.
  unfold snapshot_used_by_any_ami, bind at 1.
  destruct (image_owners_returns s) as (owners & s1 & -> & H1). run_monad.
  destruct (ec2_describe_images cloud (trace s1) owners sid) as [resp | [m | m]].
  - destruct (default [] (Images resp)); eexists _, _; (split; [done |]).
    + eapply adds_only_trans; [done |]. by apply adds_only_emit.
    + eapply adds_only_trans; [done |].
      eapply adds_only_trans; by apply adds_only_emit.
  - eexists _, _; (split; [done |]). eapply adds_only_trans; [done |].
    eapply adds_only_trans; by apply adds_only_emit.
  - eexists _, _; (split; [done |]). eapply adds_only_trans; [done |].
    eapply adds_only_trans; by apply adds_only_emit.
Qed.

(** Whatever it answers, the eligibility check makes no delete request
    and leaves the statistics alone. *)
Lemma should_delete_snapshot_frame snapshot cutoff s res s' :
  should_delete_snapshot isoformat cfg cloud snapshot cutoff s = (res, s') ->
  adds_only not_delete s s'.
Proof.
  unfold should_delete_snapshot. run_monad.
  destruct (SnapshotId snapshot) as [sid |]; simpl;
    [| intros [= <- <-]; apply adds_only_refl].
  destruct (StartTime snapshot) as [tv |]; simpl;
    [| intros [= <- <-]; apply adds_only_refl].
  destruct (negb _); [intros [= <- <-]; apply adds_only_refl |].
  destruct tv as [d |]; [| intros [= <- <-]; apply adds_only_refl].
  destruct (dt_gt _ cutoff) as [[] | e];
    [intros [= <- <-]; apply adds_only_refl | |
     intros [= <- <-]; apply adds_only_refl].
  destruct (snapshot_has_exclude_tag cfg snapshot);
    [intros [= <- <-]; apply adds_only_refl |].
  destruct (snapshot_used_by_any_ami_returns sid s) as (u & s1 & -> & H1).
  destruct u; by intros [= <- <-].
Qed.

Lemma delete_snapshot_returns sid s :
  exists ok msg s',
    delete_snapshot cloud sid s = (Return (ok, msg), s') /\
    stats s' = stats s /\
    match ec2_delete_snapshot cloud (trace s) sid with
    | DeleteReturns => ok = true /\ msg = "deleted"
    | DeleteRaises e => ok = false /\ msg = str_api e
    end.
Proof.
  unfold delete_snapshot. run_monad.
  destruct (ec2_delete_snapshot cloud (trace s) sid) as [| [m | m]];
    by eexists _, _, _.
Qed.

End Frames.

(* ===================================================================== *)
(** ** The eligibility check *)
(* ===================================================================== *)

Section Evaluate.
Variable isoformat : datetime -> string.
Variable cfg : Config.
Variable cloud : Cloud.

Lemma assume_utc_aware d : exists off, tzinfo (assume_utc d) = Some off.
Proof. unfold assume_utc. destruct (tzinfo d) eqn:E; simpl; eauto. Qed.

Lemma dt_gt_aware d cutoff :
  is_Some (tzinfo cutoff) ->
  exists b, dt_gt (assume_utc d) cutoff = Return b.
Proof.
  intros [off Hoff]. destruct (assume_utc_aware d) as [o Ho].
  unfold dt_gt. rewrite Ho, Hoff. eauto.
Qed.

Lemma has_exclude_tag_found tags t :
  t ∈ tags ->
  tag_Key t = Some (EXCLUDE_TAG_KEY cfg) ->
  EXCLUDE_TAG_VALUE cfg = "" \/
    lower (default "" (tag_Value t)) = lower (EXCLUDE_TAG_VALUE cfg) ->
  has_exclude_tag cfg tags = true.
Proof.
  intros Hin Hkey Hval. induction tags as [| t' tags IH]; [by inversion Hin |].
  simpl. apply elem_of_cons in Hin as [<- | Hin].
  - rewrite bool_decide_eq_true_2 by done.
    destruct Hval as [-> | ->]; [done |].
    unfold str_eqb at 2. rewrite bool_decide_eq_true_2 by done.
    by rewrite orb_true_r.
  - rewrite (IH Hin). by repeat case_match.
Qed.

(** A record that the tag check rejects is never eligible, whatever its
    age, and the check makes no request. *)
Lemma excluded_is_not_eligible snapshot cutoff s :
  snapshot_has_exclude_tag cfg snapshot = true ->
  is_Some (SnapshotId snapshot) ->
  is_Some (StartTime snapshot) ->
  is_Some (tzinfo cutoff) ->
  exists reason,
    should_delete_snapshot isoformat cfg cloud snapshot cutoff s
    = (Return (false, reason), s) /\
    (forall d,
        lower (default "" (State snapshot)) = "completed" ->
        StartTime snapshot = Some (IsDatetime d) ->
        dt_gt (assume_utc d) cutoff = Return false ->
        reason = "excluded by tag " +:+ EXCLUDE_TAG_KEY cfg +:+ "="
                 +:+ EXCLUDE_TAG_VALUE cfg).
Proof.
  intros Htag [sid Hsid] [tv Htv] [off Hoff].
  unfold should_delete_snapshot. run_monad. rewrite Hsid, Htv. simpl.
  destruct (str_eqb _ "completed") eqn:Hst; simpl.
  2: { eexists. split; [done |]. intros d Hc.
       apply bool_decide_eq_false in Hst. done. }
  destruct tv as [d |].
  2: { eexists. split; [done |]. intros d _ [=]. }
  destruct (dt_gt_aware d cutoff) as [b Hb]; [by eexists |].
  rewrite Hb. destruct b.
  - eexists. split; [done |]. intros d' _ [= <-]. congruence.
  - rewrite Htag. eexists. split; [done |]. done.
Qed.

(** C2. When a record has passed the state, timestamp, age and tag
    checks and the [describe_images] request for it raises, whatever the
    error, the check answers not eligible with the reason
    "referenced by AMI". *)
Theorem lookup_error_fails_closed snapshot cutoff sid d s owners s1 e :
  SnapshotId snapshot = Some sid ->
  StartTime snapshot = Some (IsDatetime d) ->
  lower (default "" (State snapshot)) = "completed" ->
  dt_gt (assume_utc d) cutoff = Return false ->
  snapshot_has_exclude_tag cfg snapshot = false ->
  image_owners cloud s = (Return owners, s1) ->
  ec2_describe_images cloud (trace s1) owners sid = DescribeRaises e ->
  exists s',
    should_delete_snapshot isoformat cfg cloud snapshot cutoff s
    = (Return (false, "referenced by AMI"), s').
Proof.
  intros Hsid Htv Hst Hage Htag Howners Hfail.
  unfold should_delete_snapshot. run_monad. rewrite Hsid, Htv. simpl.
  rewrite Hst. simpl. rewrite Hage, Htag.
  unfold snapshot_used_by_any_ami. run_monad. rewrite Howners, Hfail.
  destruct e; by eexists.
Qed.

(** The check answers eligible only for a record that the tag test
    lets through. *)
Lemma eligible_has_no_exclude_tag snapshot cutoff s reason s' :
  should_delete_snapshot isoformat cfg cloud snapshot cutoff s
  = (Return (true, reason), s') ->
  snapshot_has_exclude_tag cfg snapshot = false.
Proof.
  unfold should_delete_snapshot. run_monad.
  destruct (SnapshotId snapshot) as [sid |]; simpl; [| done].
  destruct (StartTime snapshot) as [tv |]; simpl; [| done].
  destruct (negb _); [done |].
  destruct tv as [d |]; [| done].
  destruct (dt_gt (assume_utc d) cutoff) as [[] | e]; [done | | done].
  by destruct (snapshot_has_exclude_tag cfg snapshot).
Qed.

(** C3, as the code has it. For a record that carries a tag whose key is
    equal to the rule's key, letter case included, and whose value is
    the rule's value up to letter case, the check never answers
    eligible. When the record has its ["SnapshotId"] and ["StartTime"]
    keys and the cutoff is aware, as the cutoff of a run always is, the
    check returns not eligible without making a request; when the record
    has also passed the state, timestamp and age checks the reason names
    the tag. *)
Theorem exclusion_tag_protects snapshot cutoff tags t v s :
  Tags snapshot = Some tags ->
  t ∈ tags ->
  tag_Key t = Some (EXCLUDE_TAG_KEY cfg) ->
  tag_Value t = Some v ->
  lower v = lower (EXCLUDE_TAG_VALUE cfg) ->
  (forall reason s',
      should_delete_snapshot isoformat cfg cloud snapshot cutoff s
      <> (Return (true, reason), s')) /\
  (is_Some (SnapshotId snapshot) ->
   is_Some (StartTime snapshot) ->
   is_Some (tzinfo cutoff) ->
   exists reason,
     should_delete_snapshot isoformat cfg cloud snapshot cutoff s
     = (Return (false, reason), s) /\
     (forall d,
         lower (default "" (State snapshot)) = "completed" ->
         StartTime snapshot = Some (IsDatetime d) ->
         dt_gt (assume_utc d) cutoff = Return false ->
         reason = "excluded by tag " +:+ EXCLUDE_TAG_KEY cfg +:+ "="
                  +:+ EXCLUDE_TAG_VALUE cfg)).
Proof.
  intros Htags Hin Hkey Hv Hlow.
  assert (snapshot_has_exclude_tag cfg snapshot = true) as Hexcluded.
  { unfold snapshot_has_exclude_tag. rewrite Htags. simpl.
    apply (has_exclude_tag_found tags t Hin Hkey). right. by rewrite Hv. }
  split.
  - intros reason s' Heligible.
    apply eligible_has_no_exclude_tag in Heligible. congruence.
  - intros Hid Hst Hcut. by apply excluded_is_not_eligible.
Qed.

(** X27. With an empty rule value, a record that has its ["SnapshotId"]
    and ["StartTime"] keys and carries a tag with the rule's key is not
    eligible against an aware cutoff, whatever the value of the tag, and
    no request is made for it. *)
Theorem empty_rule_value_excludes_by_key snapshot cutoff tags t s :
  EXCLUDE_TAG_VALUE cfg = "" ->
  Tags snapshot = Some tags ->
  t ∈ tags ->
  tag_Key t = Some (EXCLUDE_TAG_KEY cfg) ->
  is_Some (SnapshotId snapshot) ->
  is_Some (StartTime snapshot) ->
  is_Some (tzinfo cutoff) ->
  exists reason,
    should_delete_snapshot isoformat cfg cloud snapshot cutoff s
    = (Return (false, reason), s).
Proof.
  intros Hempty Htags Hin Hkey Hid Hst Hcut.
  destruct (excluded_is_not_eligible snapshot cutoff s) as (r & Hr & _);
    try done; [| by exists r].
  unfold snapshot_has_exclude_tag. rewrite Htags. simpl.
  apply (has_exclude_tag_found tags t Hin Hkey). by left.
Qed.

(** X6. A completed record started strictly after the cutoff is not
    eligible; the reason carries the rendering of its start time, a
    naive one marked as UTC first and an aware one as it is, in its own
    offset; neither tags nor images are looked at. *)
Lemma younger_is_not_eligible snapshot cutoff d s :
  is_Some (SnapshotId snapshot) ->
  StartTime snapshot = Some (IsDatetime d) ->
  lower (default "" (State snapshot)) = "completed" ->
  dt_gt (assume_utc d) cutoff = Return true ->
  should_delete_snapshot isoformat cfg cloud snapshot cutoff s
  = (Return (false, "age less than retention ("
                    +:+ isoformat (assume_utc d) +:+ ")"), s).
Proof.
  intros [sid Hsid] Htv Hst Hage.
  unfold should_delete_snapshot. run_monad. rewrite Hsid, Htv. simpl.
  rewrite Hst. simpl. by rewrite Hage.
Qed.

(** X7. A completed record whose ["StartTime"] key holds something that
    is not a [datetime] is not eligible, with reason "no start time". *)
Lemma non_datetime_start_time snapshot cutoff s :
  is_Some (SnapshotId snapshot) ->
  StartTime snapshot = Some NotDatetime ->
  lower (default "" (State snapshot)) = "completed" ->
  should_delete_snapshot isoformat cfg cloud snapshot cutoff s
  = (Return (false, "no start time"), s).
Proof.
  intros [sid Hsid] Htv Hst.
  unfold should_delete_snapshot. run_monad. rewrite Hsid, Htv. simpl.
  by rewrite Hst.
Qed.

(** A record without the ["StartTime"] key makes the check raise
    [KeyError], whatever its state. *)
Lemma missing_start_time_key snapshot cutoff s :
  is_Some (SnapshotId snapshot) ->
  StartTime snapshot = None ->
  should_delete_snapshot isoformat cfg cloud snapshot cutoff s
  = (Raise (KeyError "StartTime"), s).
Proof.
  intros [sid Hsid] Htv.
  unfold should_delete_snapshot. run_monad. by rewrite Hsid, Htv.
Qed.

End Evaluate.

(** The check at concrete records. *)

Lemma lookup_error_fails_closed_witness :
  exists s',
    should_delete_snapshot Sample.iso Sample.defaults
      (Sample.steady (DescribeRaises Sample.denied) DeleteReturns [])
      (Sample.completed "snap-D" 40 []) (Sample.days_ago 30) (initial None)
    = (Return (false, "referenced by AMI"), s').
Proof.
  eapply (lookup_error_fails_closed Sample.iso Sample.defaults _ _ _
            "snap-D" (Sample.days_ago 40) (initial None));
    reflexivity.
Defined.

Lemma exclusion_tag_protects_witness :
  exists reason,
    should_delete_snapshot Sample.iso Sample.defaults
      (Sample.steady Sample.no_images DeleteReturns [])
      (Sample.completed "snap-B" 40 [Sample.tag "Keep" "TRUE"])
      (Sample.days_ago 30) (initial None)
    = (Return (false, reason), initial None) /\
    reason = "excluded by tag Keep=true".
Proof.
  destruct (exclusion_tag_protects Sample.iso Sample.defaults
              (Sample.steady Sample.no_images DeleteReturns [])
              (Sample.completed "snap-B" 40 [Sample.tag "Keep" "TRUE"])
              (Sample.days_ago 30) [Sample.tag "Keep" "TRUE"]
              (Sample.tag "Keep" "TRUE") "TRUE" (initial None))
    as [_ Hreturns];
    [reflexivity | apply list_elem_of_here | reflexivity | reflexivity
    | reflexivity |].
  destruct Hreturns as (reason & Heq & Hreason);
    [by eexists | by eexists | by eexists |].
  exists reason. split; [exact Heq |].
  apply (Hreason (Sample.days_ago 40)); reflexivity.
Defined.

(** C3, as stated, fails: the tag [keep=TRUE] matches the rule
    [Keep=true] when keys and values are both compared without regard to
    letter case, and the record, old and unreferenced, is eligible. *)
Lemma exclusion_key_letter_case_matters :
  lower "keep" = lower (EXCLUDE_TAG_KEY Sample.defaults) /\
  lower "TRUE" = lower (EXCLUDE_TAG_VALUE Sample.defaults) /\
  fst (should_delete_snapshot Sample.iso Sample.defaults
         (Sample.steady Sample.no_images DeleteReturns [])
         (Sample.completed "snap-K" 40 [Sample.tag "keep" "TRUE"])
         (Sample.days_ago 30) (initial None))
  = Return (true, "eligible").
Proof. repeat split; reflexivity. Qed.

Lemma empty_rule_value_excludes_by_key_witness :
  exists reason,
    should_delete_snapshot Sample.iso
      {| RETENTION_DAYS := 30; DRY_RUN := true;
         EXCLUDE_TAG_KEY := "Keep"; EXCLUDE_TAG_VALUE := "" |}
      (Sample.steady Sample.no_images DeleteReturns [])
      (Sample.completed "snap-E" 40 [Sample.tag "Keep" "no"])
      (Sample.days_ago 30) (initial None)
    = (Return (false, reason), initial None).
Proof.
  apply (empty_rule_value_excludes_by_key Sample.iso _ _ _ _
           [Sample.tag "Keep" "no"] (Sample.tag "Keep" "no"));
    [reflexivity | reflexivity | apply list_elem_of_here | reflexivity
    | by eexists | by eexists | by eexists].
Defined.

(** C4, at the boundary. A completed, untagged, unreferenced record
    started exactly at the cutoff that [build_cutoff] computes for 30
    days is eligible. *)
Lemma started_at_cutoff_is_eligible :
  build_cutoff Sample.new_year 30 = Return (Sample.days_ago 30) /\
  dt_gt (assume_utc (Sample.days_ago 30)) (Sample.days_ago 30) = Return false /\
  fst (should_delete_snapshot Sample.iso Sample.defaults
         (Sample.steady Sample.no_images DeleteReturns [])
         (Sample.completed "snap-Q" 30 []) (Sample.days_ago 30)
         (initial None))
  = Return (true, "eligible").
Proof. repeat split; reflexivity. Qed.

(** C5, at a record without the key. A completed record that has no
    ["StartTime"] key makes the check raise [KeyError]. *)
Lemma absent_start_time_raises :
  fst (should_delete_snapshot Sample.iso Sample.defaults
         (Sample.steady Sample.no_images DeleteReturns [])
         {| SnapshotId := Some "snap-T"; StartTime := None;
            State := Some "completed"; Tags := None;
            VolumeSize := Some 8; Description := None |}
         (Sample.days_ago 30) (initial None))
  = Raise (KeyError "StartTime").
Proof. reflexivity. Qed.

(* ===================================================================== *)
(** ** The counters *)
(* ===================================================================== *)

Lemma sum_counts_bump (m : gmap string Z) reason :
  sum_counts (<[reason := default 0 (m !! reason) + 1]> m) = sum_counts m + 1.
Proof.
  unfold sum_counts.
  assert (forall (m' : gmap string Z) (j1 j2 : string) (z1 z2 y : Z),
             j1 <> j2 -> m' !! j1 = Some z1 -> m' !! j2 = Some z2 ->
             z1 + (z2 + y) = z2 + (z1 + y)) as Hcomm by (intros; lia).
  destruct (m !! reason) as [n |] eqn:Hlook; simpl.
  - rewrite <- insert_delete_eq.
    rewrite map_fold_insert_L; [| by eauto | by apply lookup_delete_eq].
    rewrite (map_fold_delete_L _ _ reason n m); [lia | by eauto | done].
  - rewrite map_fold_insert_L; [lia | by eauto | done].
Qed.

Lemma counted_consistent t t' : counted t t' -> consistent t -> consistent t'.
Proof.
  unfold consistent. intros Hc (Hd & He & Hs).
  destruct Hc; simpl; rewrite ?sum_counts_bump; lia.
Qed.

Lemma counted_scanned t t' : counted t t' -> total_scanned t' = total_scanned t + 1.
Proof. by intros []. Qed.

Lemma tally_consistent n t t' : tally n t t' -> consistent t -> consistent t'.
Proof. induction 1; eauto using counted_consistent. Qed.

Lemma tally_scanned n t t' :
  tally n t t' -> total_scanned t' = total_scanned t + Z.of_nat n.
Proof.
  induction 1 as [| n t t1 t2 Hc _ IH]; [simpl; lia |].
  rewrite IH, (counted_scanned _ _ Hc). lia.
Qed.

Lemma zero_stats_consistent : consistent zero_stats.
Proof. unfold consistent. simpl. repeat split; try lia. Qed.

Section Loop.
Variable isoformat : datetime -> string.
Variable cfg : Config.
Variable cloud : Cloud.
Variable cutoff : datetime.

(** One pass of the loop body ends normally and counts in one of the
    five ways; in a dry run it makes no delete request and leaves
    [deleted] alone. *)
Lemma process_snapshot_counts dry_run snap s :
  exists s',
    process_snapshot isoformat cfg cloud cutoff dry_run snap s
    = (Return tt, s') /\
    counted (stats s) (stats s') /\
    (dry_run = true ->
     deleted (stats s') = deleted (stats s) /\ trace_adds not_delete s s').
Proof.
  unfold process_snapshot. run_monad.
  destruct (should_delete_snapshot isoformat cfg cloud snap cutoff
              (set_stats count_scanned s)) as [[[[] reason] | exc] s1] eqn:E;
    apply should_delete_snapshot_frame in E as [Hst Htr]; simpl.
  - destruct dry_run.
    + eexists. split; [done |]. simpl. rewrite Hst. simpl.
      split; [constructor |]. intros _. split; [done |].
      eapply trace_adds_trans; [apply trace_adds_set_stats |].
      eapply trace_adds_trans; [exact Htr |].
      eapply trace_adds_trans; [apply trace_adds_set_stats |].
      eapply trace_adds_trans; by apply trace_adds_emit.
    + match goal with
      | |- context [delete_snapshot cloud ?i ?s0] =>
          destruct (delete_snapshot_returns cloud i s0)
            as (ok & msg & s2 & -> & Hst2 & _)
      end.
      destruct ok; (eexists; split; [done |]); simpl;
        rewrite Hst2; simpl; rewrite Hst; simpl; (split; [constructor | done]).
  - eexists. split; [done |]. simpl. rewrite Hst. simpl.
    split; [constructor |]. intros _. split; [done |].
    eapply trace_adds_trans; [apply trace_adds_set_stats |].
    eapply trace_adds_trans; [exact Htr |].
    eapply trace_adds_trans; [apply trace_adds_set_stats |].
    by apply trace_adds_emit.
  - eexists. split; [done |]. simpl. rewrite Hst. simpl.
    split; [constructor |]. intros _. split; [done |].
    eapply trace_adds_trans; [apply trace_adds_set_stats |].
    eapply trace_adds_trans; [exact Htr |].
    eapply trace_adds_trans;
      [by apply (trace_adds_emit _ (Log (LogUnhandled (SnapshotId snap) exc)) s1) |].
    apply trace_adds_set_stats.
Qed.

(** The loop ends normally after one pass per record. *)
Lemma for_each_tally dry_run snaps s :
  exists s',
    for_each (process_snapshot isoformat cfg cloud cutoff dry_run) snaps s
    = (Return tt, s') /\
    tally (length snaps) (stats s) (stats s') /\
    (dry_run = true ->
     deleted (stats s') = deleted (stats s) /\ trace_adds not_delete s s').
Proof.
  revert s. induction snaps as [| snap snaps IH]; intros s; simpl.
  - exists s. split; [done |]. split; [constructor |].
    intros _. split; [done | apply trace_adds_refl].
  - unfold bind.
    destruct (process_snapshot_counts dry_run snap s) as (s1 & -> & Hc & Hd).
    destruct (IH s1) as (s2 & -> & Ht & Hd2).
    exists s2. split; [done |]. split; [by econstructor |].
    intros Hdry. destruct (Hd Hdry) as [Hd1 Ht1].
    destruct (Hd2 Hdry) as [Hd3 Ht3].
    split; [congruence | by eapply trace_adds_trans].
Qed.

End Loop.

(* ===================================================================== *)
(** ** The run and the handler *)
(* ===================================================================== *)

Lemma length_records (pages : list Page) :
  length (concat (map (fun page => default [] (Snapshots page)) pages))
  = page_records pages.
Proof.
  unfold page_records. induction pages as [| page pages IH]; [done |].
  simpl. rewrite length_app. by rewrite IH.
Qed.

Section Handler.
Variable int_of_str : string -> option Z.
Variable isoformat : datetime -> string.
Variable env : gmap string string.
Variable cfg : Config.
Variable cloud : Cloud.
Variable now : Z.

Lemma list_owned_snapshots_returns s :
  exists history owner_ids s',
    list_owned_snapshots cloud s
    = (Return (concat (map (fun page => default [] (Snapshots page))
                           (ec2_describe_snapshots cloud history owner_ids))),
       s') /\
    adds_only not_delete s s'.
Proof.
  unfold list_owned_snapshots, bind at 1.
  destruct (get_account_id_returns cloud s) as (a & s1 & -> & H1).
  run_monad. by eexists _, _, _.
Qed.

Lemma run_returns cutoff dry_run s :
  exists t s',
    run isoformat cfg cloud cutoff dry_run s = (Return t, s') /\
    ran cloud dry_run s t s'.
Proof.
  unfold run, bind at 1, update, bind at 1.
  destruct (list_owned_snapshots_returns (set_stats (fun _ => zero_stats) s))
    as (history & owner_ids & s1 & -> & [Hst1 Htr1]).
  unfold bind at 1.
  destruct (for_each_tally isoformat cfg cloud cutoff dry_run
              (concat (map (fun page => default [] (Snapshots page))
                           (ec2_describe_snapshots cloud history owner_ids)))
              s1) as (s2 & -> & Htally & Hdry).
  run_monad. eexists _, _. split; [done |]. simpl.
  rewrite length_records, Hst1 in Htally. simpl in Htally.
  split; [done |]. split; [by eexists _, _ |].
  intros Hd. destruct (Hdry Hd) as [Hdel Htr2].
  split; [by rewrite Hdel, Hst1 |].
  eapply trace_adds_trans; [apply trace_adds_set_stats |].
  eapply trace_adds_trans; [exact Htr1 |].
  eapply trace_adds_trans; [exact Htr2 |].
  eapply trace_adds_trans; by apply trace_adds_emit.
Qed.

Lemma resolve_retention_days_returns event s :
  exists s',
    resolve_retention_days int_of_str env cfg event s
    = (Return (effective_retention_days int_of_str env cfg event), s') /\
    adds_only not_delete s s'.
Proof.
  unfold effective_retention_days, resolve_retention_days. run_monad.
  destruct event; try (eexists; split; [done | apply adds_only_refl]).
  destruct (dict_get d "retention_days") as [v |];
    [| eexists; split; [done | apply adds_only_refl]].
  destruct (negb _); [| eexists; split; [done | apply adds_only_refl]].
  destruct (int int_of_str v); simpl;
    (eexists; split; [done |]); [apply adds_only_refl |].
  by apply adds_only_emit.
Qed.

(** The handler stops with the exception of [build_cutoff], before any
    listing, or goes through the run and returns its statistics. *)
Lemma handler_cases event s :
  exists res s',
    handler int_of_str isoformat env cfg cloud now event s = (res, s') /\
    match build_cutoff now
            (effective_retention_days int_of_str env cfg event) with
    | Return _ =>
        exists t, res = Return t /\
                  ran cloud (resolve_dry_run env cfg event) s t s'
    | Raise e => res = Raise e /\ trace_adds not_delete s s'
    end.
Proof.
  unfold handler, bind at 1.
  destruct (resolve_retention_days_returns event s) as (s1 & -> & [Hst1 Htr1]).
  run_monad.
  destruct (build_cutoff now _) as [cutoff | e]; simpl.
  - match goal with
    | |- context [run isoformat cfg cloud cutoff ?dry ?s0] =>
        destruct (run_returns cutoff dry s0)
          as (t & s2 & -> & Hstats & Hlisted & Hdry)
    end.
    eexists _, _. split; [done |]. exists t. split; [done |].
    split; [done |]. split; [done |].
    intros Hd. destruct (Hdry Hd) as [Hdel Htr2]. split; [done |].
    eapply trace_adds_trans; [exact Htr1 |].
    eapply trace_adds_trans; [| exact Htr2].
    eapply trace_adds_trans; by apply trace_adds_emit.
  - eexists _, _. split; [done |]. split; [done |].
    eapply trace_adds_trans; [exact Htr1 |]. by apply trace_adds_emit.
Qed.

(** C1. When the handler resolves the dry-run flag to true, no delete
    request is made for any record of any listing, and the statistics it
    returns have [deleted = 0]. The handler returns statistics whenever
    [build_cutoff] does not raise. *)
Theorem dry_run_makes_no_delete_request event a :
  resolve_dry_run env cfg event = true ->
  exists res s',
    handler int_of_str isoformat env cfg cloud now event (initial a)
    = (res, s') /\
    Forall not_delete (trace s') /\
    match build_cutoff now
            (effective_retention_days int_of_str env cfg event) with
    | Return _ => exists t, res = Return t /\ deleted t = 0
    | Raise e => res = Raise e
    end.
Proof.
  intros Hdry.
  destruct (handler_cases event (initial a)) as (res & s' & Heq & Hcases).
  exists res, s'. split; [done |].
  destruct (build_cutoff now _) as [cutoff | e].
  - destruct Hcases as (t & -> & _ & _ & Hquiet).
    destruct (Hquiet Hdry) as [Hdel (evs & Htr & Hall)].
    split; [by rewrite Htr | by exists t].
  - destruct Hcases as [-> (evs & Htr & Hall)].
    split; [by rewrite Htr | done].
Qed.

(** C9. Whatever pages the paginator delivers, the statistics the
    handler returns have [total_scanned] equal to the number of records
    on all of them. *)
Theorem every_page_is_scanned pages event a :
  (forall history owner_ids,
      ec2_describe_snapshots cloud history owner_ids = pages) ->
  exists res s',
    handler int_of_str isoformat env cfg cloud now event (initial a)
    = (res, s') /\
    match build_cutoff now
            (effective_retention_days int_of_str env cfg event) with
    | Return _ =>
        exists t, res = Return t /\
                  total_scanned t = Z.of_nat (page_records pages)
    | Raise e => res = Raise e
    end.
Proof.
  intros Hpages.
  destruct (handler_cases event (initial a)) as (res & s' & Heq & Hcases).
  exists res, s'. split; [done |].
  destruct (build_cutoff now _) as [cutoff | e]; [| by destruct Hcases].
  destruct Hcases as (t & -> & _ & (history & owner_ids & Htally) & _).
  exists t. split; [done |].
  rewrite Hpages in Htally. by rewrite (tally_scanned _ _ _ Htally).
Qed.

(** C10. The statistics the handler returns satisfy
    [deleted <= eligible], [eligible + skipped <= total_scanned], and
    [skipped] is the sum of the counters of [skipped_reasons]. *)
Theorem statistics_are_consistent event a :
  exists res s',
    handler int_of_str isoformat env cfg cloud now event (initial a)
    = (res, s') /\
    match build_cutoff now
            (effective_retention_days int_of_str env cfg event) with
    | Return _ =>
        exists t, res = Return t /\
                  deleted t <= eligible t /\
                  eligible t + skipped t <= total_scanned t /\
                  skipped t = sum_counts (skipped_reasons t)
    | Raise e => res = Raise e
    end.
Proof.
  destruct (handler_cases event (initial a)) as (res & s' & Heq & Hcases).
  exists res, s'. split; [done |].
  destruct (build_cutoff now _) as [cutoff | e]; [| by destruct Hcases].
  destruct Hcases as (t & -> & _ & (history & owner_ids & Htally) & _).
  exists t. split; [done |].
  apply (tally_consistent _ _ _ Htally), zero_stats_consistent.
Qed.

End Handler.

(* ===================================================================== *)
(** ** Failed deletions *)
(* ===================================================================== *)

Section Deletion.
Variable isoformat : datetime -> string.
Variable cfg : Config.
Variable cloud : Cloud.
Variable cutoff : datetime.

(** C6. [delete_snapshot] always returns: when the request raises, the
    result is [(False, str(e))]. In a run that is not a dry run, a record
    found eligible whose delete request raises adds one to [errors] and
    nothing to [deleted], the failure is logged with its message, and
    the loop goes on through every record that follows. *)
Theorem delete_failure_is_counted snap s reason s1 e :
  should_delete_snapshot isoformat cfg cloud snap cutoff
    (set_stats count_scanned s) = (Return (true, reason), s1) ->
  ec2_delete_snapshot cloud
    (trace s1 ++
     [Log (LogEligible (SnapshotId snap) (VolumeSize snap) (StartTime snap)
             (default "" (Description snap)))])
    (SnapshotId snap) = DeleteRaises e ->
  (forall sid s0,
      exists ok msg s0',
        delete_snapshot cloud sid s0 = (Return (ok, msg), s0') /\
        forall e0, ec2_delete_snapshot cloud (trace s0) sid = DeleteRaises e0 ->
                   ok = false /\ msg = str_api e0) /\
  exists s2,
    process_snapshot isoformat cfg cloud cutoff false snap s
    = (Return tt, s2) /\
    errors (stats s2) = errors (stats s) + 1 /\
    deleted (stats s2) = deleted (stats s) /\
    Log (LogDeleteFailed (SnapshotId snap) (str_api e)) ∈ trace s2 /\
    forall rest,
      exists s3,
        for_each (process_snapshot isoformat cfg cloud cutoff false)
          (snap :: rest) s = (Return tt, s3) /\
        for_each (process_snapshot isoformat cfg cloud cutoff false)
          rest s2 = (Return tt, s3) /\
        total_scanned (stats s3)
        = total_scanned (stats s) + 1 + Z.of_nat (length rest).
Proof.
  intros Heligible Hfails. split.
  { intros sid s0.
    destruct (delete_snapshot_returns cloud sid s0)
      as (ok & msg & s0' & Heq & _ & Hout).
    exists ok, msg, s0'. split; [done |]. intros e0 He0.
    by rewrite He0 in Hout. }
  pose proof (should_delete_snapshot_frame _ _ _ _ _ _ _ _ Heligible)
    as [Hst _].
  assert (exists s2,
             process_snapshot isoformat cfg cloud cutoff false snap s
             = (Return tt, s2) /\
             stats s2 = count_error (count_eligible (count_scanned (stats s))) /\
             Log (LogDeleteFailed (SnapshotId snap) (str_api e)) ∈ trace s2)
    as (s2 & Hstep & Hstats & Hlog).
  { unfold process_snapshot. run_monad. rewrite Heligible. simpl.
    unfold delete_snapshot. run_monad. rewrite Hfails.
    destruct e as [m | m]; simpl; (eexists; split; [done |]); simpl;
      rewrite Hst; (split; [done |]);
      apply elem_of_app; right; apply list_elem_of_here. }
  exists s2. split; [done |]. rewrite Hstats. simpl.
  split; [done |]. split; [done |]. split; [done |].
  intros rest.
  destruct (for_each_tally isoformat cfg cloud cutoff false rest s2)
    as (s3 & Hrest & Htally & _).
  exists s3. split; [| split; [done |]].
  - simpl. unfold bind. by rewrite Hstep.
  - rewrite (tally_scanned _ _ _ Htally), Hstats. simpl. lia.
Qed.

End Deletion.

(* ===================================================================== *)
(** ** Environment and event *)
(* ===================================================================== *)

Section Precedence.
Variable int_of_str : string -> option Z.
Variable env : gmap string string.
Variable cfg : Config.

(** X28. With the constants of lines 39 to 42 read from the
    environment: a [RETENTION_DAYS] or [DRY_RUN] variable set to a
    non-empty string decides the value, whatever the event holds, and
    nothing is logged for the event; and when no non-empty
    [RETENTION_DAYS] is set, an event [retention_days] that [int]
    rejects is logged and the constant stays in effect. *)
Theorem nonempty_environment_value_wins event :
  module_constants int_of_str env = Return cfg ->
  (forall v, env !! "RETENTION_DAYS" = Some v -> v <> "" ->
     int_of_str v = Some (RETENTION_DAYS cfg) /\
     forall s, resolve_retention_days int_of_str env cfg event s
               = (Return (RETENTION_DAYS cfg), s)) /\
  (forall v, env !! "DRY_RUN" = Some v -> v <> "" ->
     resolve_dry_run env cfg event
     = str_in (lower v) ["1"; "true"; "yes"; "y"]) /\
  (forall d v e s,
     event = PDict d ->
     dict_get d "retention_days" = Some v ->
     truthy_opt_str (env !! "RETENTION_DAYS") = false ->
     int int_of_str v = Raise e ->
     resolve_retention_days int_of_str env cfg event s
     = (Return (RETENTION_DAYS cfg), emit (Log (LogInvalidRetention v)) s)).
Proof.
  unfold module_constants, get_env_int. intros Hcfg.
  assert (forall v : string, v <> "" -> truthy_opt_str (Some v) = true) as Hne.
  { intros v Hv. simpl. unfold str_eqb. by rewrite bool_decide_eq_false_2. }
  split; [| split].
  - intros v Hv Hnonempty. rewrite Hv in Hcfg.
    destruct (int_of_str v); [| done]. injection Hcfg as <-.
    split; [done |]. intros s. unfold resolve_retention_days.
    rewrite Hv, (Hne v Hnonempty). simpl. by repeat case_match.
  - intros v Hv Hnonempty.
    assert (DRY_RUN cfg = str_in (lower v) ["1"; "true"; "yes"; "y"]) as <-.
    { destruct (env !! "RETENTION_DAYS") as [r |];
        [destruct (int_of_str r); [| done] |];
        injection Hcfg as <-; simpl; by rewrite Hv. }
    unfold resolve_dry_run. rewrite Hv, (Hne v Hnonempty). simpl.
    by repeat case_match.
  - intros d v e s -> Hv Hunset Hbad.
    unfold resolve_retention_days. rewrite Hv, Hunset. simpl.
    unfold try_except, lift, bind, log, update, ret. by rewrite Hbad.
Qed.

End Precedence.

(** The run at concrete listings. *)

Lemma dry_run_makes_no_delete_request_witness :
  exists res s',
    handler Sample.decimal_int Sample.iso ∅ Sample.defaults
      (Sample.steady Sample.no_images DeleteReturns
         [Sample.page [Sample.completed "snap-A" 40 []]])
      Sample.new_year PNone (initial None)
    = (res, s') /\
    Forall not_delete (trace s') /\
    exists t, res = Return t /\ deleted t = 0.
Proof.
  apply (dry_run_makes_no_delete_request Sample.decimal_int Sample.iso ∅
           Sample.defaults
           (Sample.steady Sample.no_images DeleteReturns
              [Sample.page [Sample.completed "snap-A" 40 []]])
           Sample.new_year PNone None).
  reflexivity.
Defined.

(** The dry run above finds its one record eligible and deletes nothing. *)
Lemma dry_run_counts_the_eligible :
  fst (handler Sample.decimal_int Sample.iso ∅ Sample.defaults
         (Sample.steady Sample.no_images DeleteReturns
            [Sample.page [Sample.completed "snap-A" 40 []]])
         Sample.new_year PNone (initial None))
  = Return {| total_scanned := 1; eligible := 1; deleted := 0; skipped := 0;
              errors := 0; skipped_reasons := ∅ |}.
Proof. reflexivity. Qed.

Lemma every_page_is_scanned_witness :
  exists t s',
    handler Sample.decimal_int Sample.iso ∅ Sample.defaults
      (Sample.steady Sample.no_images DeleteReturns
         (replicate 3
            (Sample.page (replicate 100 (Sample.completed "snap-P" 40 [])))))
      Sample.new_year PNone (initial None)
    = (Return t, s') /\
    total_scanned t = 300.
Proof.
  destruct (every_page_is_scanned Sample.decimal_int Sample.iso ∅
              Sample.defaults
              (Sample.steady Sample.no_images DeleteReturns
                 (replicate 3
                    (Sample.page
                       (replicate 100 (Sample.completed "snap-P" 40 [])))))
              Sample.new_year
              (replicate 3
                 (Sample.page (replicate 100 (Sample.completed "snap-P" 40 []))))
              PNone None)
    as (res & s' & Heq & Hcases); [reflexivity |].
  vm_compute in Hcases. destruct Hcases as (t & -> & Hscanned).
  exists t, s'. split; [exact Heq | exact Hscanned].
Defined.

Lemma delete_failure_is_counted_witness :
  exists s2,
    process_snapshot Sample.iso Sample.live
      (Sample.steady Sample.no_images (DeleteRaises Sample.in_use) [])
      (Sample.days_ago 30) false (Sample.completed "snap-F" 40 [])
      (initial None)
    = (Return tt, s2) /\
    errors (stats s2) = 1 /\
    deleted (stats s2) = 0.
Proof.
  destruct (delete_failure_is_counted Sample.iso Sample.live
              (Sample.steady Sample.no_images (DeleteRaises Sample.in_use) [])
              (Sample.days_ago 30) (Sample.completed "snap-F" 40 [])
              (initial None) "eligible"
              (snd (should_delete_snapshot Sample.iso Sample.live
                      (Sample.steady Sample.no_images
                         (DeleteRaises Sample.in_use) [])
                      (Sample.completed "snap-F" 40 []) (Sample.days_ago 30)
                      (set_stats count_scanned (initial None))))
              Sample.in_use)
    as [_ (s2 & Hstep & Herrors & Hdeleted & _)]; [reflexivity | reflexivity |].
  exists s2. split; [exact Hstep |]. split; [exact Herrors | exact Hdeleted].
Defined.

(** Record F is eligible and its deletion fails; record G, next in the
    listing, is still looked at (and skipped as too young). *)
Lemma run_goes_on_after_a_failed_delete :
  fst (handler Sample.decimal_int Sample.iso ∅ Sample.live
         (Sample.steady Sample.no_images (DeleteRaises Sample.in_use)
            [Sample.page [Sample.completed "snap-F" 40 [];
                          Sample.completed "snap-G" 3 []]])
         Sample.new_year PNone (initial None))
  = Return {| total_scanned := 2; eligible := 1; deleted := 0; skipped := 1;
              errors := 1;
              skipped_reasons :=
                {[ "age less than retention ("
                   +:+ Sample.iso (Sample.days_ago 3) +:+ ")" := 1 ]} |}.
Proof. vm_compute. reflexivity. Qed.

Lemma nonempty_environment_value_wins_witness :
  resolve_dry_run {[ "RETENTION_DAYS" := "7"; "DRY_RUN" := "false" ]}
    {| RETENTION_DAYS := 7; DRY_RUN := false;
       EXCLUDE_TAG_KEY := "Keep"; EXCLUDE_TAG_VALUE := "true" |}
    (PDict [("retention_days", PInt 60); ("dry_run", PBool true)])
  = false.
Proof.
  destruct (nonempty_environment_value_wins Sample.decimal_int
              {[ "RETENTION_DAYS" := "7"; "DRY_RUN" := "false" ]}
              {| RETENTION_DAYS := 7; DRY_RUN := false;
                 EXCLUDE_TAG_KEY := "Keep"; EXCLUDE_TAG_VALUE := "true" |}
              (PDict [("retention_days", PInt 60); ("dry_run", PBool true)]))
    as (_ & Hdry & _); [reflexivity |].
  apply (Hdry "false"); [reflexivity | discriminate].
Defined.

(** C8, at an empty variable. With [DRY_RUN] present in the environment
    and set to the empty string the constant is false, and an event with
    a true [dry_run] makes the effective flag true: the event wins over a
    variable that is present. *)
Lemma empty_dry_run_variable_yields_to_event :
  ({[ "DRY_RUN" := "" ]} : gmap string string) !! "DRY_RUN" = Some "" /\
  dict_get [("dry_run", PBool true)] "dry_run" = Some (PBool true) /\
  module_constants Sample.decimal_int {[ "DRY_RUN" := "" ]}
  = Return Sample.live /\
  resolve_dry_run {[ "DRY_RUN" := "" ]} Sample.live
    (PDict [("dry_run", PBool true)])
  = true.
Proof. repeat split; reflexivity. Qed.

(** C7, at a tagged record without the key. With an empty rule value, a
    completed record that carries a tag with the rule's key and has no
    ["StartTime"] key makes the check raise [KeyError]: it does not
    return not eligible. This is the subscript of C5. *)
Lemma tagged_record_without_start_time_raises :
  tag_Key (Sample.tag "Keep" "no") = Some "Keep" /\
  fst (should_delete_snapshot Sample.iso
         {| RETENTION_DAYS := 30; DRY_RUN := true;
            EXCLUDE_TAG_KEY := "Keep"; EXCLUDE_TAG_VALUE := "" |}
         (Sample.steady Sample.no_images DeleteReturns [])
         {| SnapshotId := Some "snap-V"; StartTime := None;
            State := Some "completed";
            Tags := Some [Sample.tag "Keep" "no"];
            VolumeSize := Some 8; Description := None |}
         (Sample.days_ago 30) (initial None))
  = Raise (KeyError "StartTime").
Proof. split; reflexivity. Qed.

(** The handler counts a record without the ["StartTime"] key under
    [errors]; nothing is skipped for want of a start time. *)
Lemma absent_start_time_counts_as_error :
  fst (handler Sample.decimal_int Sample.iso ∅ Sample.defaults
         (Sample.steady Sample.no_images DeleteReturns
            [Sample.page [{| SnapshotId := Some "snap-T"; StartTime := None;
                             State := Some "completed"; Tags := None;
                             VolumeSize := Some 8; Description := None |}]])
         Sample.new_year PNone (initial None))
  = Return {| total_scanned := 1; eligible := 0; deleted := 0; skipped := 0;
              errors := 1; skipped_reasons := ∅ |}.
Proof. reflexivity. Qed.

(** With deletion switched on, the record started exactly at the cutoff
    is deleted. *)
Lemma started_at_cutoff_is_deleted :
  fst (handler Sample.decimal_int Sample.iso ∅ Sample.live
         (Sample.steady Sample.no_images DeleteReturns
            [Sample.page [Sample.completed "snap-Q" 30 []]])
         Sample.new_year PNone (initial None))
  = Return {| total_scanned := 1; eligible := 1; deleted := 1; skipped := 0;
              errors := 0; skipped_reasons := ∅ |}.
Proof. reflexivity. Qed.

(* ===================================================================== *)
(** ** More on the eligibility check *)
(* ===================================================================== *)

Section Verdicts.
Variable isoformat : datetime -> string.
Variable cfg : Config.
Variable cloud : Cloud.

(** X1. A record whose state, in lower case, is not "completed" is not
    eligible, with the lowered state as the reason, whatever its age and
    tags; no request is made for it. *)
Theorem other_state_is_not_eligible snapshot cutoff s :
  is_Some (SnapshotId snapshot) ->
  is_Some (StartTime snapshot) ->
  lower (default "" (State snapshot)) <> "completed" ->
  should_delete_snapshot isoformat cfg cloud snapshot cutoff s
  = (Return (false, "state=" +:+ lower (default "" (State snapshot))), s).
Proof.
  intros [sid Hsid] [tv Htv] Hstate.
  unfold should_delete_snapshot. run_monad. rewrite Hsid, Htv. simpl.
  unfold str_eqb. by rewrite bool_decide_eq_false_2.
Qed.

(** X2. The check answers eligible only with the reason "eligible", and
    only for a record that has both keys, is completed, holds a datetime
    not after the cutoff, carries no exclusion tag, and for which the
    [describe_images] request was made and returned no image. *)
Theorem eligible_verdict_requires_every_check snapshot cutoff s reason s' :
  should_delete_snapshot isoformat cfg cloud snapshot cutoff s
  = (Return (true, reason), s') ->
  reason = "eligible" /\
  lower (default "" (State snapshot)) = "completed" /\
  snapshot_has_exclude_tag cfg snapshot = false /\
  exists sid d owners s1 resp,
    SnapshotId snapshot = Some sid /\
    StartTime snapshot = Some (IsDatetime d) /\
    dt_gt (assume_utc d) cutoff = Return false /\
    image_owners cloud s = (Return owners, s1) /\
    ec2_describe_images cloud (trace s1) owners sid = DescribeReturns resp /\
    default [] (Images resp) = [] /\
    s' = emit (DescribeImages owners sid) s1.
Proof.
  unfold should_delete_snapshot. run_monad.
  destruct (SnapshotId snapshot) as [sid |]; simpl; [| done].
  destruct (StartTime snapshot) as [tv |]; simpl; [| done].
  destruct (str_eqb _ "completed") eqn:Hstate; simpl; [| done].
  apply bool_decide_eq_true in Hstate.
  destruct tv as [d |]; [| done].
  destruct (dt_gt (assume_utc d) cutoff) as [[] | e] eqn:Hage; [done | | done].
  destruct (snapshot_has_exclude_tag cfg snapshot) eqn:Htag; [done |].
  unfold snapshot_used_by_any_ami. run_monad.
  destruct (image_owners_returns cloud s) as (owners & s1 & Howners & _).
  rewrite Howners.
  destruct (ec2_describe_images cloud (trace s1) owners sid)
    as [resp | [m | m]] eqn:Hanswer; simpl; [| by intros [=] | by intros [=]].
  destruct (default [] (Images resp)) eqn:Himages; simpl; [| by intros [=]].
  intros [= <- <-]. repeat split; try done.
  by exists sid, d, owners, s1, resp.
Qed.

(** X3. Conversely, a completed record that holds a datetime not after
    the cutoff, carries no exclusion tag, and whose [describe_images]
    request returns no image, is eligible. *)
Theorem record_passing_every_check_is_eligible
    snapshot cutoff sid d s owners s1 resp :
  SnapshotId snapshot = Some sid ->
  StartTime snapshot = Some (IsDatetime d) ->
  lower (default "" (State snapshot)) = "completed" ->
  dt_gt (assume_utc d) cutoff = Return false ->
  snapshot_has_exclude_tag cfg snapshot = false ->
  image_owners cloud s = (Return owners, s1) ->
  ec2_describe_images cloud (trace s1) owners sid = DescribeReturns resp ->
  default [] (Images resp) = [] ->
  should_delete_snapshot isoformat cfg cloud snapshot cutoff s
  = (Return (true, "eligible"), emit (DescribeImages owners sid) s1).
Proof.
  intros Hsid Htv Hst Hage Htag Howners Hanswer Hnone.
  unfold should_delete_snapshot. run_monad. rewrite Hsid, Htv. simpl.
  rewrite Hst. simpl. rewrite Hage, Htag.
  unfold snapshot_used_by_any_ami. run_monad.
  by rewrite Howners, Hanswer, Hnone.
Qed.

(** X4. A record that has passed the state, timestamp, age and tag checks
    and for which [describe_images] returns at least one image is not
    eligible, with the reason "referenced by AMI". *)
Theorem referenced_record_is_not_eligible
    snapshot cutoff sid d s owners s1 resp image images :
  SnapshotId snapshot = Some sid ->
  StartTime snapshot = Some (IsDatetime d) ->
  lower (default "" (State snapshot)) = "completed" ->
  dt_gt (assume_utc d) cutoff = Return false ->
  snapshot_has_exclude_tag cfg snapshot = false ->
  image_owners cloud s = (Return owners, s1) ->
  ec2_describe_images cloud (trace s1) owners sid = DescribeReturns resp ->
  Images resp = Some (image :: images) ->
  exists s',
    should_delete_snapshot isoformat cfg cloud snapshot cutoff s
    = (Return (false, "referenced by AMI"), s') /\
    Log (LogReferenced sid (map ImageId (image :: images))) ∈ trace s'.
Proof.
  intros Hsid Htv Hst Hage Htag Howners Hanswer Hsome.
  unfold should_delete_snapshot. run_monad. rewrite Hsid, Htv. simpl.
  rewrite Hst. simpl. rewrite Hage, Htag.
  unfold snapshot_used_by_any_ami. run_monad.
  rewrite Howners, Hanswer, Hsome. simpl.
  eexists. split; [done |]. simpl.
  apply elem_of_app. right. apply list_elem_of_here.
Qed.

(** X5. A naive start time is read as UTC: the record gets the verdict,
    the reason and the requests of the same record with that reading
    marked as UTC. *)
Theorem naive_start_time_is_read_as_utc snapshot cutoff d s :
  StartTime snapshot = Some (IsDatetime d) ->
  tzinfo d = None ->
  should_delete_snapshot isoformat cfg cloud snapshot cutoff s
  = should_delete_snapshot isoformat cfg cloud
      {| SnapshotId := SnapshotId snapshot;
         StartTime := Some (IsDatetime {| wall := wall d; tzinfo := Some 0 |});
         State := State snapshot; Tags := Tags snapshot;
         VolumeSize := VolumeSize snapshot;
         Description := Description snapshot |}
      cutoff s.
Proof.
  intros Htv Hnaive. unfold should_delete_snapshot, snapshot_has_exclude_tag.
  simpl. rewrite Htv.
  assert (assume_utc d = {| wall := wall d; tzinfo := Some 0 |}) as Hutc.
  { unfold assume_utc. by rewrite Hnaive. }
  run_monad. destruct (SnapshotId snapshot); simpl; [| done].
  by rewrite Hutc.
Qed.

End Verdicts.

(* ===================================================================== *)
(** ** The exclusion test and the account id *)
(* ===================================================================== *)

Section Owners.
Variable cfg : Config.
Variable cloud : Cloud.

Lemma has_exclude_tag_inv tags :
  has_exclude_tag cfg tags = true ->
  exists t,
    t ∈ tags /\
    tag_Key t = Some (EXCLUDE_TAG_KEY cfg) /\
    (EXCLUDE_TAG_VALUE cfg = "" \/
     lower (default "" (tag_Value t)) = lower (EXCLUDE_TAG_VALUE cfg)).
Proof.
  induction tags as [| t tags IH]; simpl; [done |].
  destruct (bool_decide (tag_Key t = Some (EXCLUDE_TAG_KEY cfg))) eqn:Hkey.
  - apply bool_decide_eq_true in Hkey.
    destruct (str_eqb (EXCLUDE_TAG_VALUE cfg) "") eqn:Hempty; simpl.
    + intros _. exists t. apply bool_decide_eq_true in Hempty.
      split; [apply list_elem_of_here | by auto].
    + destruct (str_eqb (lower _) _) eqn:Hvalue.
      * intros _. exists t. apply bool_decide_eq_true in Hvalue.
        split; [apply list_elem_of_here | by auto].
      * intros H. destruct (IH H) as (t' & Hin & Hrest).
        exists t'. split; [by apply list_elem_of_further | done].
  - intros H. destruct (IH H) as (t' & Hin & Hrest).
    exists t'. split; [by apply list_elem_of_further | done].
Qed.

(** X8. The exclusion test is true exactly when the record has a tag
    whose key is the rule's key and whose value, in lower case, is the
    rule's value in lower case, or the rule's value is empty; a record
    without tags, or without that key, is never excluded. *)
Theorem exclusion_test_is_exact snapshot :
  snapshot_has_exclude_tag cfg snapshot = true <->
  exists tags t,
    Tags snapshot = Some tags /\
    t ∈ tags /\
    tag_Key t = Some (EXCLUDE_TAG_KEY cfg) /\
    (EXCLUDE_TAG_VALUE cfg = "" \/
     lower (default "" (tag_Value t)) = lower (EXCLUDE_TAG_VALUE cfg)).
Proof.
  unfold snapshot_has_exclude_tag. split.
  - destruct (Tags snapshot) as [tags |]; simpl; [| done].
    intros H. destruct (has_exclude_tag_inv tags H) as (t & Hin & Hrest).
    by exists tags, t.
  - intros (tags & t & -> & Hin & Hkey & Hvalue). simpl.
    by apply (has_exclude_tag_found cfg tags t).
Qed.

(** A truthy result of [get_account_id] is what the global now holds,
    and asking again costs no request. *)
Lemma get_account_id_cached s a s1 :
  get_account_id cloud s = (Return a, s1) ->
  truthy_opt_str a = true ->
  account_id s1 = a /\ get_account_id cloud s1 = (Return a, s1).
Proof.
  unfold get_account_id. run_monad.
  destruct (truthy_opt_str (account_id s)) eqn:Hcached.
  - intros [= <- <-] _. by rewrite Hcached.
  - destruct (sts_account cloud (trace s)) as [acct |]; simpl.
    + intros [= <- <-] Htruthy. simpl in *. by rewrite Htruthy.
    + by intros [= <- <-].
Qed.

(** X9. [get_account_id] never raises. When the global already holds a
    non-empty id it is returned without any request; a non-empty id
    obtained from STS is stored, so that the next call returns it
    without a request; a failure returns [None] after one request and
    one warning, and stores nothing. *)
Theorem account_id_is_resolved_once s :
  exists a s1,
    get_account_id cloud s = (Return a, s1) /\
    (truthy_opt_str (account_id s) = true -> a = account_id s /\ s1 = s) /\
    (truthy_opt_str a = true ->
     account_id s1 = a /\ get_account_id cloud s1 = (Return a, s1)) /\
    (truthy_opt_str (account_id s) = false ->
     sts_account cloud (trace s) = None ->
     a = None /\ account_id s1 = account_id s /\
     trace s1 = trace s ++ [GetCallerIdentity; Log LogStsFailed]).
Proof.
  destruct (get_account_id_returns cloud s) as (a & s1 & Heq & _).
  exists a, s1. split; [done |]. split; [| split].
  - intros Hcached. revert Heq. unfold get_account_id. run_monad.
    rewrite Hcached. by intros [= <- <-].
  - by apply (get_account_id_cached s a s1).
  - intros Hcold Hfails. revert Heq. unfold get_account_id. run_monad.
    rewrite Hcold, Hfails. simpl. intros [= <- <-]. simpl.
    by rewrite <- app_assoc.
Qed.

Lemma truthy_opt_str_inv a :
  truthy_opt_str a = true -> exists o, a = Some o /\ o <> "".
Proof.
  destruct a as [o |]; simpl; [| done]. intros H. exists o. split; [done |].
  apply negb_true_iff, bool_decide_eq_false in H. done.
Qed.

Lemma owners_of_account s a s1 :
  get_account_id cloud s = (Return a, s1) ->
  exists o,
    (if truthy_opt_str a then [a] else [Some "self"]) = [Some o] /\
    o <> "" /\ (o = "self" \/ account_id s1 = Some o).
Proof.
  intros Heq. destruct (truthy_opt_str a) eqn:Htruthy.
  - destruct (truthy_opt_str_inv a Htruthy) as (o & -> & Ho).
    destruct (get_account_id_cached s _ s1 Heq Htruthy) as [Hacct _].
    exists o. auto.
  - exists "self". auto.
Qed.

(** X10. Both owner filters, [Owners] of [describe_images] and [OwnerIds]
    of the snapshot listing, are always a single non-empty string: the
    account id the global holds, or "self" when none could be
    resolved. *)
Theorem owner_filter_is_account_or_self s :
  (exists o s1,
      image_owners cloud s = (Return [Some o], s1) /\
      o <> "" /\ (o = "self" \/ account_id s1 = Some o)) /\
  (exists o s1,
      list_owned_snapshots cloud s
      = (Return (concat (map (fun page => default [] (Snapshots page))
                             (ec2_describe_snapshots cloud (trace s1)
                                [Some o]))), s1) /\
      o <> "" /\ (o = "self" \/ account_id s1 = Some o)).
Proof.
  destruct (get_account_id_returns cloud s) as (a & s1 & Heq & _).
  destruct (owners_of_account s a s1 Heq) as (o & Howners & Ho & Hwhich).
  split.
  - unfold image_owners, bind at 1. rewrite Heq.
    destruct (truthy_opt_str a) eqn:Htruthy.
    + destruct (get_account_id_cached s a s1 Heq Htruthy) as [_ Hagain].
      unfold bind, ret. rewrite Hagain. exists o, s1. by rewrite Howners.
    + exists o, s1. by rewrite <- Howners.
  - unfold list_owned_snapshots, bind at 1. rewrite Heq. run_monad.
    exists o, s1. by rewrite Howners.
Qed.

End Owners.

(* ===================================================================== *)
(** ** Invariants of a whole invocation *)
(* ===================================================================== *)

Lemma count_events_app p tr1 tr2 :
  count_events p (tr1 ++ tr2) = count_events p tr1 + count_events p tr2.
Proof. induction tr1 as [| e tr1 IH]; simpl; [done | rewrite IH; lia]. Qed.

Lemma count_events_nonneg p tr : 0 <= count_events p tr.
Proof. induction tr as [| e tr IH]; simpl; [done | destruct (p e); lia]. Qed.

Lemma count_events_identity tr :
  Forall is_identity tr ->
  count_events is_describe tr = 0 /\ count_events is_delete tr = 0.
Proof.
  induction 1 as [| e tr He _ [IH1 IH2]]; simpl; [done |].
  rewrite IH1, IH2. by destruct e.
Qed.

Lemma is_log_identity tr : Forall is_log tr -> Forall is_identity tr.
Proof. intros H. eapply Forall_impl; [exact H |]. by intros []. Qed.

Section Invocation.
Variable int_of_str : string -> option Z.
Variable isoformat : datetime -> string.
Variable env : gmap string string.
Variable cfg : Config.
Variable cloud : Cloud.
Variable now : Z.

Lemma get_account_id_identity s :
  exists a s', get_account_id cloud s = (Return a, s') /\
               adds_only is_identity s s'.
Proof.
  unfold get_account_id. run_monad.
  destruct (truthy_opt_str (account_id s)).
  - eexists _, _. split; [done | apply adds_only_refl].
  - destruct (sts_account cloud (trace s)); eexists _, _; (split; [done |]).
    + eapply adds_only_trans; [by apply (adds_only_emit _ GetCallerIdentity) |].
      apply adds_only_set_account.
    + eapply adds_only_trans; [by apply (adds_only_emit _ GetCallerIdentity) |].
      by apply adds_only_emit.
Qed.

Lemma image_owners_identity s :
  exists owners s', image_owners cloud s = (Return owners, s') /\
                    adds_only is_identity s s'.
Proof.
  unfold image_owners, bind.
  destruct (get_account_id_identity s) as (a & s1 & -> & H1).
  destruct (truthy_opt_str a).
  - destruct (get_account_id_identity s1) as (a2 & s2 & -> & H2).
    eexists _, _. split; [done | by eapply adds_only_trans].
  - by eexists _, _.
Qed.

Lemma resolve_retention_days_logs event s :
  exists s',
    resolve_retention_days int_of_str env cfg event s
    = (Return (effective_retention_days int_of_str env cfg event), s') /\
    account_id s' = account_id s /\ adds_only is_log s s'.
Proof.
  unfold effective_retention_days, resolve_retention_days. run_monad.
  destruct event; try (eexists; split; [done | split; [done | apply adds_only_refl]]).
  destruct (dict_get d "retention_days") as [v |];
    [| eexists; split; [done | split; [done | apply adds_only_refl]]].
  destruct (negb _);
    [| eexists; split; [done | split; [done | apply adds_only_refl]]].
  destruct (int int_of_str v); simpl;
    (eexists; split; [done |]); (split; [done |]); [apply adds_only_refl |].
  by apply adds_only_emit.
Qed.

(** One pass of the loop body always ends normally. *)
Lemma process_snapshot_ends cutoff dry_run snap s :
  process_snapshot isoformat cfg cloud cutoff dry_run snap s
  = (Return tt, snd (process_snapshot isoformat cfg cloud cutoff dry_run snap s)).
Proof.
  destruct (process_snapshot_counts isoformat cfg cloud cutoff dry_run snap s)
    as (s' & -> & _). done.
Qed.

Lemma for_each_invariant (Inv : St -> Prop) cutoff dry_run snaps s :
  (forall snap s0,
      snap ∈ snaps -> Inv s0 ->
      Inv (snd (process_snapshot isoformat cfg cloud cutoff dry_run snap s0))) ->
  Inv s ->
  exists s',
    for_each (process_snapshot isoformat cfg cloud cutoff dry_run) snaps s
    = (Return tt, s') /\ Inv s'.
Proof.
  revert s. induction snaps as [| snap snaps IH]; intros s Hstep Hinv; simpl.
  - by exists s.
  - unfold bind. rewrite process_snapshot_ends.
    apply IH.
    + intros snap' s0 Hin. apply Hstep. by apply list_elem_of_further.
    + apply Hstep; [apply list_elem_of_here | done].
Qed.

(** A property of the state that holds when the loop starts, that every
    pass of the loop body keeps, and that log records do not disturb,
    holds when the handler returns. *)
Lemma handler_invariant (Inv : St -> Prop) event a cutoff :
  build_cutoff now (effective_retention_days int_of_str env cfg event)
  = Return cutoff ->
  (forall s, stats s = zero_stats -> Forall is_identity (trace s) -> Inv s) ->
  (forall snap s history owner_ids,
      snap ∈ records (ec2_describe_snapshots cloud history owner_ids) ->
      Inv s ->
      Inv (snd (process_snapshot isoformat cfg cloud cutoff
                  (resolve_dry_run env cfg event) snap s))) ->
  (forall r s, Inv s -> Inv (emit (Log r) s)) ->
  exists t s',
    handler int_of_str isoformat env cfg cloud now event (initial a)
    = (Return t, s') /\
    stats s' = t /\ Inv s'.
Proof.
  intros Hcut Hstart Hstep Hlog.
  unfold handler, bind at 1.
  destruct (resolve_retention_days_logs event (initial a))
    as (s1 & -> & _ & [_ (ev1 & Htr1 & Hlogs1)]).
  run_monad. rewrite Hcut. simpl.
  unfold run, bind at 1, update, bind at 1.
  unfold list_owned_snapshots, bind at 1.
  match goal with
  | |- context [get_account_id cloud ?s0] =>
      destruct (get_account_id_identity s0)
        as (acct & s2 & -> & [Hst2 (ev2 & Htr2 & Hid2)])
  end.
  unfold bind at 1, read, bind at 1, ret, bind at 1.
  match goal with
  | |- context [for_each ?body ?snaps s2] =>
      destruct (for_each_invariant Inv cutoff
                  (resolve_dry_run env cfg event) snaps s2)
        as (s3 & Hloop & Hinv3)
  end.
  - intros snap s0 Hin. by eapply Hstep.
  - apply Hstart; [by rewrite Hst2 |].
    rewrite Htr2. simpl. rewrite Htr1. simpl.
    repeat (apply Forall_app; split); try done;
      [by apply is_log_identity | by repeat constructor..].
  - rewrite Hloop. run_monad. eexists _, _. split; [done |].
    split; [done |]. by apply Hlog, Hlog.
Qed.

End Invocation.

Section Audit.
Variable isoformat : datetime -> string.
Variable cfg : Config.
Variable cloud : Cloud.
Variable cutoff : datetime.

(** The check makes one [describe_images] request exactly when it
    answers "eligible" or "referenced by AMI", and none otherwise; it
    raises only for a record without one of the keys or against a naive
    cutoff. *)
Lemma should_delete_snapshot_audit snapshot s :
  exists res s1 evs,
    should_delete_snapshot isoformat cfg cloud snapshot cutoff s = (res, s1) /\
    stats s1 = stats s /\
    trace s1 = trace s ++ evs /\
    count_events is_delete evs = 0 /\
    (count_events is_describe evs = 1 /\
     (res = Return (true, "eligible") \/
      res = Return (false, "referenced by AMI"))
     \/
     count_events is_describe evs = 0 /\
     match res with
     | Return (b, r) =>
         b = false /\ r <> "eligible" /\ r <> "referenced by AMI"
     | Raise _ => ~ (has_keys snapshot /\ is_Some (tzinfo cutoff))
     end).
Proof.
  assert (forall res, 
             (match res with
              | Return (b, r) =>
                  b = false /\ r <> "eligible" /\ r <> "referenced by AMI"
              | Raise _ => ~ (has_keys snapshot /\ is_Some (tzinfo cutoff))
              end) ->
             exists (res0 : Result (bool * string)) s1 evs,
               (res, s) = (res0, s1) /\ stats s1 = stats s /\
               trace s1 = trace s ++ evs /\
               count_events is_delete evs = 0 /\
               (count_events is_describe evs = 1 /\
                (res0 = Return (true, "eligible") \/
                 res0 = Return (false, "referenced by AMI"))
                \/
                count_events is_describe evs = 0 /\
                match res0 with
                | Return (b, r) =>
                    b = false /\ r <> "eligible" /\ r <> "referenced by AMI"
                | Raise _ => ~ (has_keys snapshot /\ is_Some (tzinfo cutoff))
                end)) as Hquiet.
  { intros res Hres. exists res, s, []. rewrite app_nil_r.
    repeat split; try done. by right. }
  unfold should_delete_snapshot. run_monad.
  destruct (SnapshotId snapshot) as [sid |] eqn:Hsid; simpl.
  2: { apply Hquiet. intros [[Hid _] _]. rewrite Hsid in Hid. by destruct Hid. }
  destruct (StartTime snapshot) as [tv |] eqn:Htv; simpl.
  2: { apply Hquiet. intros [[_ Hst] _]. rewrite Htv in Hst. by destruct Hst. }
  destruct (negb _); [by apply Hquiet |].
  destruct tv as [d |]; [| by apply Hquiet].
  destruct (dt_gt (assume_utc d) cutoff) as [[] | e] eqn:Hage;
    [by apply Hquiet | |].
  2: { apply Hquiet. intros [_ Haware].
       destruct (dt_gt_aware d cutoff Haware) as [b Hb]. congruence. }
  destruct (snapshot_has_exclude_tag cfg snapshot); [by apply Hquiet |].
  unfold snapshot_used_by_any_ami. run_monad.
  destruct (image_owners_identity cloud s)
    as (owners & s1 & -> & [Hst1 (ev1 & Htr1 & Hid1)]).
  destruct (count_events_identity ev1 Hid1) as [Hd1 Hx1].
  destruct (ec2_describe_images cloud (trace s1) owners sid)
    as [resp | [m | m]]; simpl.
  - destruct (default [] (Images resp)); simpl.
    + eexists _, _, (ev1 ++ [DescribeImages owners sid]).
      split; [done |]. simpl. rewrite Htr1, <- app_assoc.
      rewrite !count_events_app, Hd1, Hx1. simpl. by auto 10.
    + eexists _, _, (ev1 ++ [DescribeImages owners sid; Log _]).
      split; [done |]. simpl. rewrite Htr1, <- !app_assoc.
      rewrite !count_events_app, Hd1, Hx1. simpl. by auto 10.
  - eexists _, _, (ev1 ++ [DescribeImages owners sid; Log _]).
    split; [done |]. simpl. rewrite Htr1, <- !app_assoc.
    rewrite !count_events_app, Hd1, Hx1. simpl. by auto 10.
  - eexists _, _, (ev1 ++ [DescribeImages owners sid; Log _]).
    split; [done |]. simpl. rewrite Htr1, <- !app_assoc.
    rewrite !count_events_app, Hd1, Hx1. simpl. by auto 10.
Qed.

(** One pass of the loop body, audited. *)
Lemma process_snapshot_audit dry_run snap s :
  exists evs describes deletes,
    trace (snd (process_snapshot isoformat cfg cloud cutoff dry_run snap s))
    = trace s ++ evs /\
    count_events is_describe evs = describes /\
    count_events is_delete evs = deletes /\
    audited dry_run (has_keys snap /\ is_Some (tzinfo cutoff)) (stats s)
      (stats (snd (process_snapshot isoformat cfg cloud cutoff dry_run snap s)))
      describes deletes.
Proof.
  unfold process_snapshot. run_monad.
  destruct (should_delete_snapshot_audit snap (set_stats count_scanned s))
    as (res & s1 & ev1 & -> & Hst & Htr & Hdel & Hcases).
  simpl in Hst, Htr.
  assert (forall evs2 tr2 t2 describes deletes,
             tr2 = trace s1 ++ evs2 ->
             count_events is_describe ev1 + count_events is_describe evs2
             = describes ->
             count_events is_delete evs2 = deletes ->
             audited dry_run (has_keys snap /\ is_Some (tzinfo cutoff))
               (stats s) t2 describes deletes ->
             exists evs describes deletes,
               tr2 = trace s ++ evs /\
               count_events is_describe evs = describes /\
               count_events is_delete evs = deletes /\
               audited dry_run (has_keys snap /\ is_Some (tzinfo cutoff))
                 (stats s) t2 describes deletes) as Hclose.
  { intros evs2 tr2 t2 describes deletes Htr2 Hn Hm Haud.
    exists (ev1 ++ evs2), describes, deletes.
    rewrite Htr2, Htr, <- app_assoc, !count_events_app, Hdel.
    repeat split; (done || lia). }
  destruct Hcases as [[Hdesc [-> | ->]] | [Hdesc Hres]]; simpl;
    rewrite Hdesc in Hclose.
  - destruct dry_run.
    + run_monad. eapply (Hclose [_; _]);
        [by rewrite <- ?app_assoc | reflexivity | reflexivity |].
      simpl. rewrite Hst. by constructor.
    + unfold delete_snapshot. run_monad.
      destruct (ec2_delete_snapshot cloud _ (SnapshotId snap)) as [| [m | m]];
        run_monad.
      * eapply (Hclose [_; _; _]);
          [by rewrite <- ?app_assoc | reflexivity | reflexivity |].
        simpl. rewrite Hst. by constructor.
      * eapply (Hclose [_; _; _; _]);
          [by rewrite <- ?app_assoc | reflexivity | reflexivity |].
        simpl. rewrite Hst. by constructor.
      * eapply (Hclose [_; _; _; _]);
          [by rewrite <- ?app_assoc | reflexivity | reflexivity |].
        simpl. rewrite Hst. by constructor.
  - run_monad. eapply (Hclose [_]); [done | reflexivity | reflexivity |].
    simpl. rewrite Hst. by constructor.
  - destruct res as [[b r] | exc]; run_monad.
    + destruct Hres as (-> & Hr1 & Hr2). run_monad.
      eapply (Hclose [_]); [done | reflexivity | reflexivity |].
      simpl. rewrite Hst. by constructor.
    + eapply (Hclose [_]); [done | reflexivity | reflexivity |].
      simpl. rewrite Hst. by constructor.
Qed.

End Audit.

Lemma build_cutoff_aware now days cutoff :
  build_cutoff now days = Return cutoff -> tzinfo cutoff = Some 0.
Proof.
  unfold build_cutoff. repeat case_match; try done. by intros [= <-].
Qed.

Lemma count_events_emit_log p r s :
  (forall r', p (Log r') = false) ->
  count_events p (trace (emit (Log r) s)) = count_events p (trace s).
Proof. intros Hp. simpl. rewrite count_events_app. simpl. rewrite Hp. lia. Qed.

Section Accounts.
Variable int_of_str : string -> option Z.
Variable isoformat : datetime -> string.
Variable env : gmap string string.
Variable cfg : Config.
Variable cloud : Cloud.
Variable now : Z.

(** X11. When the handler returns, the trace of the invocation and the
    statistics agree: the number of [delete_snapshot] requests is
    [eligible] (none in a dry run), and the number of [describe_images]
    requests is [eligible] plus the number of records skipped as
    "referenced by AMI"; so at most one request of each kind is made per
    record. *)
Theorem requests_match_statistics event a cutoff :
  build_cutoff now (effective_retention_days int_of_str env cfg event)
  = Return cutoff ->
  exists t s',
    handler int_of_str isoformat env cfg cloud now event (initial a)
    = (Return t, s') /\
    count_events is_delete (trace s')
    = (if resolve_dry_run env cfg event then 0 else eligible t) /\
    count_events is_describe (trace s')
    = eligible t + default 0 (skipped_reasons t !! "referenced by AMI").
Proof.
  intros Hcut.
  destruct (handler_invariant int_of_str isoformat env cfg cloud now
              (fun s =>
                 count_events is_delete (trace s)
                 = (if resolve_dry_run env cfg event then 0
                    else eligible (stats s)) /\
                 count_events is_describe (trace s)
                 = eligible (stats s)
                   + default 0 (skipped_reasons (stats s)
                                  !! "referenced by AMI"))
              event a cutoff Hcut) as (t & s' & Heq & <- & Hinv).
  - intros s Hzero Hid. rewrite Hzero. simpl.
    destruct (count_events_identity _ Hid) as [-> ->].
    by destruct (resolve_dry_run env cfg event).
  - intros snap s _ _ _ [Hdel Hdesc].
    destruct (process_snapshot_audit isoformat cfg cloud cutoff
                (resolve_dry_run env cfg event) snap s)
      as (evs & n & m & -> & <- & <- & Haud).
    rewrite !count_events_app, Hdel, Hdesc.
    destruct Haud as [r Hr1 Hr2 | | Hdry | Hdry | Hdry | _]; simpl;
      rewrite ?Hdry; simpl;
      rewrite ?lookup_insert_eq, ?lookup_insert_ne by done; simpl;
      try (destruct (resolve_dry_run env cfg event));
      try discriminate; (split; lia).
  - intros r s [Hdel Hdesc]. by rewrite !count_events_emit_log.
  - by exists (stats s'), s'.
Qed.

(** X12. When the handler returns, no counter is negative,
    [deleted + errors <= total_scanned], and every scanned record is
    counted as eligible, skipped or in error:
    [total_scanned <= eligible + skipped + errors]. *)
Theorem every_record_is_counted event a cutoff :
  build_cutoff now (effective_retention_days int_of_str env cfg event)
  = Return cutoff ->
  exists t s',
    handler int_of_str isoformat env cfg cloud now event (initial a)
    = (Return t, s') /\
    0 <= deleted t /\ 0 <= skipped t /\ 0 <= errors t /\
    deleted t + errors t <= total_scanned t /\
    total_scanned t <= eligible t + skipped t + errors t.
Proof.
  intros Hcut.
  destruct (handler_invariant int_of_str isoformat env cfg cloud now
              (fun s =>
                 0 <= deleted (stats s) /\ 0 <= skipped (stats s) /\
                 0 <= errors (stats s) /\
                 deleted (stats s) + errors (stats s)
                 <= total_scanned (stats s) /\
                 total_scanned (stats s)
                 <= eligible (stats s) + skipped (stats s) + errors (stats s))
              event a cutoff Hcut) as (t & s' & Heq & <- & Hinv).
  - intros s Hzero _. rewrite Hzero. simpl. lia.
  - intros snap s _ _ _ Hinv.
    destruct (process_snapshot_audit isoformat cfg cloud cutoff
                (resolve_dry_run env cfg event) snap s)
      as (evs & n & m & _ & _ & _ & Haud).
    destruct Haud; simpl; lia.
  - by intros r s Hinv.
  - by exists (stats s'), s'.
Qed.

(** X13. When the handler returns, every reason recorded in
    [skipped_reasons] has a count of at least one, and "eligible" is not
    among the reasons. *)
Theorem skip_reasons_are_counted event a cutoff :
  build_cutoff now (effective_retention_days int_of_str env cfg event)
  = Return cutoff ->
  exists t s',
    handler int_of_str isoformat env cfg cloud now event (initial a)
    = (Return t, s') /\
    skipped_reasons t !! "eligible" = None /\
    forall reason n, skipped_reasons t !! reason = Some n -> 1 <= n.
Proof.
  intros Hcut.
  destruct (handler_invariant int_of_str isoformat env cfg cloud now
              (fun s =>
                 skipped_reasons (stats s) !! "eligible" = None /\
                 forall reason n,
                   skipped_reasons (stats s) !! reason = Some n -> 1 <= n)
              event a cutoff Hcut) as (t & s' & Heq & <- & Hinv).
  - intros s Hzero _. rewrite Hzero. simpl. split; [done |].
    intros reason n. by rewrite lookup_empty.
  - intros snap s _ _ _ [Hnone Hpos].
    assert (forall r,
               r <> "eligible" ->
               <[r := default 0 (skipped_reasons (stats s) !! r) + 1]>
                 (skipped_reasons (stats s)) !! "eligible" = None /\
               forall reason n,
                 <[r := default 0 (skipped_reasons (stats s) !! r) + 1]>
                   (skipped_reasons (stats s)) !! reason = Some n -> 1 <= n)
      as Hbump.
    { intros r Hr. split; [by rewrite lookup_insert_ne |].
      intros reason n. destruct (decide (r = reason)) as [<- | Hne].
      - rewrite lookup_insert_eq. intros [= <-].
        destruct (skipped_reasons (stats s) !! r) as [k |] eqn:Hk; simpl;
          [pose proof (Hpos r k Hk) |]; lia.
      - rewrite lookup_insert_ne by done. apply Hpos. }
    destruct (process_snapshot_audit isoformat cfg cloud cutoff
                (resolve_dry_run env cfg event) snap s)
      as (evs & n & m & _ & _ & _ & Haud).
    destruct Haud; simpl; try done; by apply Hbump.
  - by intros r s Hinv.
  - by exists (stats s'), s'.
Qed.

(** X14. When every listed record has the ["SnapshotId"] and
    ["StartTime"] keys and the handler returns, each record is either
    eligible or skipped, [total_scanned = eligible + skipped]; a dry run
    then reports no error and no deletion, and a live run has
    [eligible = deleted + errors]. *)
Theorem well_formed_listing_is_fully_accounted event a cutoff :
  build_cutoff now (effective_retention_days int_of_str env cfg event)
  = Return cutoff ->
  (forall history owner_ids,
      Forall has_keys
        (records (ec2_describe_snapshots cloud history owner_ids))) ->
  exists t s',
    handler int_of_str isoformat env cfg cloud now event (initial a)
    = (Return t, s') /\
    total_scanned t = eligible t + skipped t /\
    if resolve_dry_run env cfg event
    then errors t = 0 /\ deleted t = 0
    else eligible t = deleted t + errors t.
Proof.
  intros Hcut Hkeys.
  destruct (handler_invariant int_of_str isoformat env cfg cloud now
              (fun s =>
                 total_scanned (stats s)
                 = eligible (stats s) + skipped (stats s) /\
                 if resolve_dry_run env cfg event
                 then errors (stats s) = 0 /\ deleted (stats s) = 0
                 else eligible (stats s)
                      = deleted (stats s) + errors (stats s))
              event a cutoff Hcut) as (t & s' & Heq & <- & Hinv).
  - intros s Hzero _. rewrite Hzero. simpl.
    by destruct (resolve_dry_run env cfg event).
  - intros snap s history owner_ids Hin [Htotal Hmode].
    pose proof (Hkeys history owner_ids) as Hall.
    rewrite Forall_forall in Hall. specialize (Hall snap Hin).
    destruct (process_snapshot_audit isoformat cfg cloud cutoff
                (resolve_dry_run env cfg event) snap s)
      as (evs & n & m & _ & _ & _ & Haud).
    destruct Haud as [r Hr1 Hr2 | | Hdry | Hdry | Hdry | Hbad]; simpl.
    6: { exfalso. apply Hbad. split; [done |].
         rewrite (build_cutoff_aware _ _ _ Hcut). by eexists. }
    all: rewrite ?Hdry in *; simpl;
      destruct (resolve_dry_run env cfg event); try discriminate;
      (split; [lia |]); lia.
  - by intros r s Hinv.
  - by exists (stats s'), s'.
Qed.

(** X15. For a listing that the paginator delivers, a clock reading
    inside the calendar and a retention that is not negative and does
    not reach before the start of the calendar, the handler returns
    statistics in which every delivered record is scanned: nothing in a
    record and no answer or failure of STS, [describe_images] or
    [delete_snapshot] makes it raise. *)
Theorem handler_returns_within_the_calendar pages event a :
  (forall history owner_ids,
      ec2_describe_snapshots cloud history owner_ids = pages) ->
  0 <= now < max_wall ->
  0 <= effective_retention_days int_of_str env cfg event ->
  effective_retention_days int_of_str env cfg event * us_per_day <= now ->
  exists t s',
    handler int_of_str isoformat env cfg cloud now event (initial a)
    = (Return t, s') /\
    stats s' = t /\
    total_scanned t = Z.of_nat (page_records pages).
Proof.
  intros Hpages Hnow Hdays Hreach.
  assert (exists cutoff,
             build_cutoff now
               (effective_retention_days int_of_str env cfg event)
             = Return cutoff) as [cutoff Hcut].
  { unfold build_cutoff.
    set (days := effective_retention_days int_of_str env cfg event) in *.
    unfold max_wall, us_per_day, max_delta_days in *.
    destruct (_ <? Z.abs days) eqn:Hbig; [apply Z.ltb_lt in Hbig; lia |].
    destruct (_ && _) eqn:Hrange; [by eexists |].
    apply andb_false_iff in Hrange as [H | H];
      [apply Z.leb_gt in H | apply Z.ltb_ge in H]; lia. }
  destruct (handler_cases int_of_str isoformat env cfg cloud now event
              (initial a)) as (res & s' & Heq & Hcases).
  rewrite Hcut in Hcases.
  destruct Hcases as (t & -> & Hstats & (history & owner_ids & Htally) & _).
  exists t, s'. split; [done |]. split; [done |].
  rewrite Hpages in Htally. by rewrite (tally_scanned _ _ _ Htally).
Qed.

(** X16. When [build_cutoff] raises for the effective retention, the
    handler raises [OverflowError] before the listing: it has made no
    request, only log records, and has counted nothing. *)
Theorem cutoff_out_of_range_stops_the_handler event a e :
  build_cutoff now (effective_retention_days int_of_str env cfg event)
  = Raise e ->
  exists s',
    handler int_of_str isoformat env cfg cloud now event (initial a)
    = (Raise OverflowError, s') /\
    e = OverflowError /\
    Forall is_log (trace s') /\
    stats s' = zero_stats /\ account_id s' = a.
Proof.
  intros Hcut.
  assert (e = OverflowError) as ->.
  { revert Hcut. unfold build_cutoff. repeat case_match; congruence. }
  unfold handler, bind at 1.
  destruct (resolve_retention_days_logs int_of_str env cfg event (initial a))
    as (s1 & -> & Hacct & [Hst (ev1 & Htr & Hlogs)]).
  run_monad. rewrite Hcut. simpl. eexists. split; [done |]. simpl.
  split; [done |]. split; [| done].
  rewrite Htr. simpl. apply Forall_app. split; [done | by repeat constructor].
Qed.

End Accounts.

(* ===================================================================== *)
(** ** Deleting, and where the flags come from *)
(* ===================================================================== *)

Section Live.
Variable isoformat : datetime -> string.
Variable cfg : Config.
Variable cloud : Cloud.
Variable cutoff : datetime.

(** X17. In a run that is not a dry run, a record found eligible whose
    delete request returns adds one to [deleted] and nothing to
    [errors]; the pass makes exactly one delete request, for the id of
    that record, and logs the deletion. *)
Theorem successful_delete_is_counted snap s reason s1 :
  should_delete_snapshot isoformat cfg cloud snap cutoff
    (set_stats count_scanned s) = (Return (true, reason), s1) ->
  ec2_delete_snapshot cloud
    (trace s1 ++
     [Log (LogEligible (SnapshotId snap) (VolumeSize snap) (StartTime snap)
             (default "" (Description snap)))])
    (SnapshotId snap) = DeleteReturns ->
  exists s2,
    process_snapshot isoformat cfg cloud cutoff false snap s
    = (Return tt, s2) /\
    stats s2 = count_deleted (count_eligible (count_scanned (stats s))) /\
    trace s2
    = trace s1 ++
      [Log (LogEligible (SnapshotId snap) (VolumeSize snap) (StartTime snap)
              (default "" (Description snap)));
       DeleteSnapshot (SnapshotId snap);
       Log (LogDeleted (SnapshotId snap))].
Proof.
  intros Heligible Hreturns.
  pose proof (should_delete_snapshot_frame _ _ _ _ _ _ _ _ Heligible)
    as [Hst _].
  unfold process_snapshot. run_monad. rewrite Heligible. simpl.
  unfold delete_snapshot. run_monad. rewrite Hreturns. simpl.
  eexists. split; [done |]. simpl. rewrite Hst.
  split; [done |]. by rewrite <- !app_assoc.
Qed.

End Live.

Lemma str_in_false s l : ~ s ∈ l -> str_in s l = false.
Proof.
  intros Hnot. unfold str_in. apply not_true_is_false. intros Hin.
  apply Hnot. apply existsb_exists in Hin as (x & Hx & Heq).
  apply bool_decide_eq_true in Heq. subst x. by apply list_elem_of_In.
Qed.

Section Flags.
Variable int_of_str : string -> option Z.
Variable isoformat : datetime -> string.
Variable env : gmap string string.
Variable cfg : Config.
Variable cloud : Cloud.
Variable now : Z.

(** X18. With no non-empty [RETENTION_DAYS] and [DRY_RUN] in the
    environment, the values of a dictionary event are used: the retention
    is [int] of ["retention_days"] when that conversion succeeds, with
    nothing logged, and the dry-run flag is the truth value of
    ["dry_run"], so that any non-empty string, "false" included, means a
    dry run. *)
Theorem event_values_apply_when_environment_is_silent d :
  truthy_opt_str (env !! "RETENTION_DAYS") = false ->
  truthy_opt_str (env !! "DRY_RUN") = false ->
  (forall v days s,
      dict_get d "retention_days" = Some v ->
      int int_of_str v = Return days ->
      resolve_retention_days int_of_str env cfg (PDict d) s
      = (Return days, s)) /\
  (forall v,
      dict_get d "dry_run" = Some v ->
      resolve_dry_run env cfg (PDict d) = truthy v) /\
  (forall text,
      dict_get d "dry_run" = Some (PStr text) -> text <> "" ->
      resolve_dry_run env cfg (PDict d) = true).
Proof.
  intros Hdays Hdry. split; [| split].
  - intros v days s Hv Hint. unfold resolve_retention_days.
    rewrite Hv, Hdays. simpl. unfold try_except, lift. by rewrite Hint.
  - intros v Hv. unfold resolve_dry_run. by rewrite Hv, Hdry.
  - intros text Hv Htext. unfold resolve_dry_run. rewrite Hv, Hdry. simpl.
    unfold str_eqb. by rewrite bool_decide_eq_false_2.
Qed.

(** X19. The defaults are safe: when [DRY_RUN] is not set in the
    environment the module constant is true, and for an event that is not
    a dictionary, or has no ["dry_run"] key, the handler makes no delete
    request. *)
Theorem unset_dry_run_never_deletes event a :
  module_constants int_of_str env = Return cfg ->
  env !! "DRY_RUN" = None ->
  (forall d, event = PDict d -> dict_get d "dry_run" = None) ->
  DRY_RUN cfg = true /\
  exists res s',
    handler int_of_str isoformat env cfg cloud now event (initial a)
    = (res, s') /\
    Forall not_delete (trace s') /\
    forall t, res = Return t -> deleted t = 0.
Proof.
  intros Hcfg Hunset Hevent.
  assert (DRY_RUN cfg = true) as Hconst.
  { revert Hcfg. unfold module_constants.
    destruct (get_env_int _ _ _ _); [| done]. intros [= <-]. simpl.
    by rewrite Hunset. }
  assert (resolve_dry_run env cfg event = true) as Hdry.
  { unfold resolve_dry_run. destruct event; try done.
    by rewrite (Hevent d eq_refl). }
  split; [done |].
  destruct (handler_cases int_of_str isoformat env cfg cloud now event
              (initial a)) as (res & s' & Heq & Hcases).
  exists res, s'. split; [done |].
  destruct (build_cutoff now _) as [cutoff | e].
  - destruct Hcases as (t & -> & _ & _ & Hquiet).
    destruct (Hquiet Hdry) as [Hdel (evs & Htr & Hall)].
    split; [by rewrite Htr |]. by intros t' [= <-].
  - destruct Hcases as [-> (evs & Htr & Hall)].
    split; [by rewrite Htr | done].
Qed.

(** X20. Reading the constants of lines 39 to 42 raises, with
    [ValueError], exactly when [RETENTION_DAYS] is set to a string that
    [int] rejects; no value of the other three variables makes it raise,
    and a [DRY_RUN] set to anything but a spelling of "1", "true", "yes"
    or "y" gives the constant false, which switches deletion on. *)
Theorem constants_fail_only_on_malformed_retention :
  (module_constants int_of_str env = Raise ValueError <->
   exists v, env !! "RETENTION_DAYS" = Some v /\ int_of_str v = None) /\
  (forall e, module_constants int_of_str env = Raise e -> e = ValueError) /\
  (forall loaded v,
      module_constants int_of_str env = Return loaded ->
      env !! "DRY_RUN" = Some v ->
      ~ lower v ∈ ["1"; "true"; "yes"; "y"] ->
      DRY_RUN loaded = false).
Proof.
  unfold module_constants, get_env_int.
  destruct (env !! "RETENTION_DAYS") as [r |] eqn:Hr.
  - destruct (int_of_str r) eqn:Hint; (split; [split |]).
    + done.
    + intros (v & [= <-] & Hv). congruence.
    + split; [done |]. intros loaded v [= <-] Hv Hnot. cbn [DRY_RUN].
      rewrite Hv.
      exact (str_in_false (lower v) ["1"; "true"; "yes"; "y"] Hnot).
    + intros _. by exists r.
    + done.
    + split; [by intros e [= <-] | done].
  - split; [split |].
    + done.
    + by intros (v & [=] & _).
    + split; [done |]. intros loaded v [= <-] Hv Hnot. cbn [DRY_RUN].
      rewrite Hv.
      exact (str_in_false (lower v) ["1"; "true"; "yes"; "y"] Hnot).
Qed.

End Flags.

(* ===================================================================== *)
(** ** The further properties at concrete records and listings *)
(* ===================================================================== *)

Lemma other_state_is_not_eligible_witness :
  should_delete_snapshot Sample.iso Sample.defaults
    (Sample.steady Sample.no_images DeleteReturns [])
    (Sample.pending "snap-C" 400) (Sample.days_ago 30) (initial None)
  = (Return (false, "state=pending"), initial None).
Proof.
  apply (other_state_is_not_eligible Sample.iso Sample.defaults
           (Sample.steady Sample.no_images DeleteReturns [])
           (Sample.pending "snap-C" 400) (Sample.days_ago 30) (initial None));
    [by eexists | by eexists | discriminate].
Defined.

Lemma eligible_verdict_requires_every_check_witness :
  snapshot_has_exclude_tag Sample.defaults (Sample.completed "snap-A" 40 [])
  = false /\
  exists owners s1 resp,
    image_owners (Sample.steady Sample.no_images DeleteReturns [])
      (initial None) = (Return owners, s1) /\
    ec2_describe_images (Sample.steady Sample.no_images DeleteReturns [])
      (trace s1) owners "snap-A" = DescribeReturns resp /\
    default [] (Images resp) = [].
Proof.
  destruct (eligible_verdict_requires_every_check Sample.iso Sample.defaults
              (Sample.steady Sample.no_images DeleteReturns [])
              (Sample.completed "snap-A" 40 []) (Sample.days_ago 30)
              (initial None) "eligible"
              (snd (should_delete_snapshot Sample.iso Sample.defaults
                      (Sample.steady Sample.no_images DeleteReturns [])
                      (Sample.completed "snap-A" 40 []) (Sample.days_ago 30)
                      (initial None))))
    as (_ & _ & Htag & sid & d & owners & s1 & resp & Hsid & _ & _ & Howners
        & Hanswer & Hnone & _); [reflexivity |].
  split; [exact Htag |]. exists owners, s1, resp.
  injection Hsid as <-. split; [exact Howners |].
  split; [exact Hanswer | exact Hnone].
Defined.

Lemma record_passing_every_check_is_eligible_witness :
  exists s',
    should_delete_snapshot Sample.iso Sample.defaults
      (Sample.steady Sample.no_images DeleteReturns [])
      (Sample.completed "snap-A" 40 []) (Sample.days_ago 30) (initial None)
    = (Return (true, "eligible"), s').
Proof.
  eexists.
  eapply (record_passing_every_check_is_eligible Sample.iso Sample.defaults
            (Sample.steady Sample.no_images DeleteReturns [])
            (Sample.completed "snap-A" 40 []) (Sample.days_ago 30)
            "snap-A" (Sample.days_ago 40) (initial None));
    reflexivity.
Defined.

Lemma referenced_record_is_not_eligible_witness :
  exists s',
    should_delete_snapshot Sample.iso Sample.defaults
      (Sample.steady Sample.one_image DeleteReturns [])
      (Sample.completed "snap-R" 40 []) (Sample.days_ago 30) (initial None)
    = (Return (false, "referenced by AMI"), s') /\
    Log (LogReferenced "snap-R" [Some "ami-0a1b"]) ∈ trace s'.
Proof.
  eapply (referenced_record_is_not_eligible Sample.iso Sample.defaults
            (Sample.steady Sample.one_image DeleteReturns [])
            (Sample.completed "snap-R" 40 []) (Sample.days_ago 30)
            "snap-R" (Sample.days_ago 40) (initial None) _ _ _
            {| ImageId := Some "ami-0a1b" |} []);
    reflexivity.
Defined.

Lemma naive_start_time_is_read_as_utc_witness :
  should_delete_snapshot Sample.iso Sample.defaults
    (Sample.steady Sample.no_images DeleteReturns [])
    {| SnapshotId := Some "snap-N";
       StartTime := Some (IsDatetime {| wall := Sample.new_year;
                                        tzinfo := None |});
       State := Some "completed"; Tags := None;
       VolumeSize := None; Description := None |}
    (Sample.days_ago 30) (initial None)
  = should_delete_snapshot Sample.iso Sample.defaults
      (Sample.steady Sample.no_images DeleteReturns [])
      {| SnapshotId := Some "snap-N";
         StartTime := Some (IsDatetime {| wall := Sample.new_year;
                                          tzinfo := Some 0 |});
         State := Some "completed"; Tags := None;
         VolumeSize := None; Description := None |}
      (Sample.days_ago 30) (initial None).
Proof.
  apply (naive_start_time_is_read_as_utc Sample.iso Sample.defaults
           (Sample.steady Sample.no_images DeleteReturns [])
           {| SnapshotId := Some "snap-N";
              StartTime := Some (IsDatetime {| wall := Sample.new_year;
                                               tzinfo := None |});
              State := Some "completed"; Tags := None;
              VolumeSize := None; Description := None |}
           (Sample.days_ago 30)
           {| wall := Sample.new_year; tzinfo := None |} (initial None));
    reflexivity.
Defined.

Lemma younger_is_not_eligible_witness :
  should_delete_snapshot Sample.iso Sample.defaults
    (Sample.steady Sample.no_images DeleteReturns [])
    (Sample.completed "snap-G" 3 [Sample.tag "Keep" "true"])
    (Sample.days_ago 30) (initial None)
  = (Return (false, "age less than retention ("
                    +:+ Sample.iso (Sample.days_ago 3) +:+ ")"),
     initial None).
Proof.
  apply (younger_is_not_eligible Sample.iso Sample.defaults
           (Sample.steady Sample.no_images DeleteReturns [])
           (Sample.completed "snap-G" 3 [Sample.tag "Keep" "true"])
           (Sample.days_ago 30) (Sample.days_ago 3) (initial None));
    [by eexists | reflexivity | reflexivity | reflexivity].
Defined.

Lemma non_datetime_start_time_witness :
  should_delete_snapshot Sample.iso Sample.defaults
    (Sample.steady Sample.no_images DeleteReturns [])
    {| SnapshotId := Some "snap-U"; StartTime := Some NotDatetime;
       State := Some "Completed"; Tags := None;
       VolumeSize := None; Description := None |}
    (Sample.days_ago 30) (initial None)
  = (Return (false, "no start time"), initial None).
Proof.
  apply (non_datetime_start_time Sample.iso Sample.defaults
           (Sample.steady Sample.no_images DeleteReturns [])
           {| SnapshotId := Some "snap-U"; StartTime := Some NotDatetime;
              State := Some "Completed"; Tags := None;
              VolumeSize := None; Description := None |}
           (Sample.days_ago 30) (initial None));
    [by eexists | reflexivity | reflexivity].
Defined.

Lemma requests_match_statistics_witness :
  exists t s',
    handler Sample.decimal_int Sample.iso ∅ Sample.live
      (Sample.steady Sample.no_images DeleteReturns Sample.old_and_young)
      Sample.new_year PNone (initial None)
    = (Return t, s') /\
    count_events is_delete (trace s') = eligible t /\
    count_events is_describe (trace s')
    = eligible t + default 0 (skipped_reasons t !! "referenced by AMI").
Proof.
  apply (requests_match_statistics Sample.decimal_int Sample.iso ∅
           Sample.live
           (Sample.steady Sample.no_images DeleteReturns Sample.old_and_young)
           Sample.new_year PNone None (Sample.days_ago 30)).
  reflexivity.
Defined.

Lemma every_record_is_counted_witness :
  exists t s',
    handler Sample.decimal_int Sample.iso ∅ Sample.live
      (Sample.steady Sample.no_images (DeleteRaises Sample.in_use)
         Sample.old_and_young)
      Sample.new_year PNone (initial None)
    = (Return t, s') /\
    0 <= deleted t /\ 0 <= skipped t /\ 0 <= errors t /\
    deleted t + errors t <= total_scanned t /\
    total_scanned t <= eligible t + skipped t + errors t.
Proof.
  apply (every_record_is_counted Sample.decimal_int Sample.iso ∅ Sample.live
           (Sample.steady Sample.no_images (DeleteRaises Sample.in_use)
              Sample.old_and_young)
           Sample.new_year PNone None (Sample.days_ago 30)).
  reflexivity.
Defined.

Lemma skip_reasons_are_counted_witness :
  exists t s',
    handler Sample.decimal_int Sample.iso ∅ Sample.defaults
      (Sample.steady Sample.one_image DeleteReturns Sample.old_and_young)
      Sample.new_year PNone (initial None)
    = (Return t, s') /\
    skipped_reasons t !! "eligible" = None /\
    forall reason n, skipped_reasons t !! reason = Some n -> 1 <= n.
Proof.
  apply (skip_reasons_are_counted Sample.decimal_int Sample.iso ∅
           Sample.defaults
           (Sample.steady Sample.one_image DeleteReturns Sample.old_and_young)
           Sample.new_year PNone None (Sample.days_ago 30)).
  reflexivity.
Defined.

Lemma well_formed_listing_is_fully_accounted_witness :
  exists t s',
    handler Sample.decimal_int Sample.iso ∅ Sample.live
      (Sample.steady Sample.no_images (DeleteRaises Sample.in_use)
         Sample.old_and_young)
      Sample.new_year PNone (initial None)
    = (Return t, s') /\
    total_scanned t = eligible t + skipped t /\
    eligible t = deleted t + errors t.
Proof.
  apply (well_formed_listing_is_fully_accounted Sample.decimal_int Sample.iso
           ∅ Sample.live
           (Sample.steady Sample.no_images (DeleteRaises Sample.in_use)
              Sample.old_and_young)
           Sample.new_year PNone None (Sample.days_ago 30)).
  - reflexivity.
  - intros history owner_ids. repeat constructor; by eexists.
Defined.

Lemma handler_returns_within_the_calendar_witness :
  exists t s',
    handler Sample.decimal_int Sample.iso ∅ Sample.defaults
      (Sample.steady Sample.no_images DeleteReturns Sample.old_and_young)
      Sample.new_year (PDict [("retention_days", PStr "60")]) (initial None)
    = (Return t, s') /\
    stats s' = t /\
    total_scanned t = 2.
Proof.
  apply (handler_returns_within_the_calendar Sample.decimal_int Sample.iso ∅
           Sample.defaults
           (Sample.steady Sample.no_images DeleteReturns Sample.old_and_young)
           Sample.new_year Sample.old_and_young
           (PDict [("retention_days", PStr "60")]) None).
  - reflexivity.
  - split; by vm_compute.
  - by vm_compute.
  - by vm_compute.
Defined.

Lemma cutoff_out_of_range_stops_the_handler_witness :
  exists s',
    handler Sample.decimal_int Sample.iso ∅ Sample.live
      (Sample.steady Sample.no_images DeleteReturns Sample.old_and_young)
      Sample.new_year (PDict [("retention_days", PInt 4000000)])
      (initial None)
    = (Raise OverflowError, s') /\
    OverflowError = OverflowError /\
    Forall is_log (trace s') /\
    stats s' = zero_stats /\ account_id s' = None.
Proof.
  apply (cutoff_out_of_range_stops_the_handler Sample.decimal_int Sample.iso ∅
           Sample.live
           (Sample.steady Sample.no_images DeleteReturns Sample.old_and_young)
           Sample.new_year (PDict [("retention_days", PInt 4000000)]) None
           OverflowError).
  reflexivity.
Defined.

Lemma successful_delete_is_counted_witness :
  exists s2,
    process_snapshot Sample.iso Sample.live
      (Sample.steady Sample.no_images DeleteReturns [])
      (Sample.days_ago 30) false (Sample.completed "snap-A" 40 [])
      (initial None)
    = (Return tt, s2) /\
    deleted (stats s2) = 1 /\ errors (stats s2) = 0.
Proof.
  destruct (successful_delete_is_counted Sample.iso Sample.live
              (Sample.steady Sample.no_images DeleteReturns [])
              (Sample.days_ago 30) (Sample.completed "snap-A" 40 [])
              (initial None) "eligible"
              (snd (should_delete_snapshot Sample.iso Sample.live
                      (Sample.steady Sample.no_images DeleteReturns [])
                      (Sample.completed "snap-A" 40 []) (Sample.days_ago 30)
                      (set_stats count_scanned (initial None)))))
    as (s2 & Hstep & Hstats & _); [reflexivity | reflexivity |].
  exists s2. split; [exact Hstep |]. rewrite Hstats. split; reflexivity.
Defined.

Lemma event_values_apply_when_environment_is_silent_witness :
  resolve_dry_run ∅ Sample.live
    (PDict [("retention_days", PStr "60"); ("dry_run", PStr "false")])
  = true.
Proof.
  destruct (event_values_apply_when_environment_is_silent Sample.decimal_int
              ∅ Sample.live
              [("retention_days", PStr "60"); ("dry_run", PStr "false")])
    as (_ & _ & Htext); [reflexivity | reflexivity |].
  apply (Htext "false"); [reflexivity | discriminate].
Defined.

Lemma unset_dry_run_never_deletes_witness :
  DRY_RUN Sample.defaults = true /\
  exists res s',
    handler Sample.decimal_int Sample.iso ∅ Sample.defaults
      (Sample.steady Sample.no_images DeleteReturns Sample.old_and_young)
      Sample.new_year (PDict [("retention_days", PInt 7)]) (initial None)
    = (res, s') /\
    Forall not_delete (trace s') /\
    forall t, res = Return t -> deleted t = 0.
Proof.
  apply (unset_dry_run_never_deletes Sample.decimal_int Sample.iso ∅
           Sample.defaults
           (Sample.steady Sample.no_images DeleteReturns Sample.old_and_young)
           Sample.new_year (PDict [("retention_days", PInt 7)]) None).
  - reflexivity.
  - reflexivity.
  - intros d [= <-]. reflexivity.
Defined.

(* ===================================================================== *)
(** ** Starting and stopping database instances *)
(* ===================================================================== *)

Section RdsSchedule.
Variable settings : Rds.Settings.
Variable rds : Rds.Service.
Variable current_hour : Z.
Variable current_day : Z.

Lemma rds_targets_app tr1 tr2 :
  Rds.targets (tr1 ++ tr2) = Rds.targets tr1 ++ Rds.targets tr2.
Proof. unfold Rds.targets. apply omap_app. Qed.

(** Fetching acts on no instance. *)
Lemma rds_collect_targets instances tagged tr :
  Rds.targets (snd (Rds.collect settings rds instances tagged tr))
  = Rds.targets tr.
Proof.
  revert tagged tr. induction instances as [| db instances IH];
    intros tagged tr; simpl; [done |].
  destruct (Rds.DBInstanceArn db) as [arn |]; [| done].
  assert (Rds.targets (tr ++ [Rds.ListTagsForResource arn]) = Rds.targets tr)
    as Hstep by (rewrite rds_targets_app; simpl; by rewrite app_nil_r).
  destruct (Rds.list_tags_for_resource rds tr arn) as [tags | e]; [| done].
  destruct (Rds.tag_dict tags) as [d | e]; [| done].
  destruct (Rds.required_tags_match settings d).
  - destruct (Rds.DBInstanceIdentifier db); [| done]. by rewrite IH.
  - by rewrite IH.
Qed.

Lemma rds_fetch_targets tr :
  Rds.targets (snd (Rds.get_tagged_rds_instances settings rds tr))
  = Rds.targets tr.
Proof.
  unfold Rds.get_tagged_rds_instances.
  destruct (Rds.describe_db_instances rds tr) as [instances | e].
  - pose proof (rds_collect_targets instances []
                  (tr ++ [Rds.DescribeDbInstances])) as Hc.
    destruct (Rds.collect settings rds instances []
                (tr ++ [Rds.DescribeDbInstances])) as [[tagged | e] tr2];
      simpl in *; rewrite ?rds_targets_app, Hc, rds_targets_app; simpl;
      by rewrite ?app_nil_r.
  - simpl. rewrite !rds_targets_app. simpl. by rewrite !app_nil_r.
Qed.

(** Every request of the loop is the one the schedule asks for. *)
Lemma rds_manage_scheduled identifiers tr :
  Forall (Rds.scheduled current_hour current_day) tr ->
  Forall (Rds.scheduled current_hour current_day)
    (snd (Rds.manage rds current_hour current_day identifiers tr)).
Proof.
  revert tr. induction identifiers as [| id identifiers IH]; intros tr Htr;
    simpl; [done |].
  assert (forall log request answer,
             Rds.scheduled current_hour current_day log ->
             Rds.scheduled current_hour current_day request ->
             Forall (Rds.scheduled current_hour current_day)
               (snd (match answer with
                     | Some e => (Some e, (tr ++ [log]) ++ [request])
                     | None =>
                         Rds.manage rds current_hour current_day identifiers
                           ((tr ++ [log]) ++ [request])
                     end))) as Hcase.
  { intros log request answer Hlog Hreq.
    assert (Forall (Rds.scheduled current_hour current_day)
              ((tr ++ [log]) ++ [request])) as Hall.
    { repeat (apply Forall_app; split); try done; by repeat constructor. }
    destruct answer; simpl; [done | by apply IH]. }
  destruct ((0 <=? current_day) && (current_day <=? 4)) eqn:Hday;
    [destruct ((6 <=? current_hour) && (current_hour <? 18)) eqn:Hhour |];
    apply Hcase; try done; simpl; unfold Rds.business_hours.
  - apply andb_true_iff in Hday as [H1 H2], Hhour as [H3 H4].
    rewrite ?Z.leb_le, ?Z.ltb_lt in *. lia.
  - apply andb_false_iff in Hhour.
    rewrite ?Z.leb_gt, ?Z.ltb_ge in *. lia.
  - apply andb_false_iff in Hday.
    rewrite ?Z.leb_gt, ?Z.ltb_ge in *. lia.
Qed.

(** X21. The handler starts an instance only on a weekday (days 0 to 4)
    from 6 to before 18, and stops one only outside those hours: no
    instance is ever started at a weekend or at night, and none is
    stopped during business hours. *)
Theorem rds_requests_follow_the_schedule :
  Forall (Rds.scheduled current_hour current_day)
    (snd (Rds.lambda_handler settings rds current_hour current_day)).
Proof.
  unfold Rds.lambda_handler.
  destruct (Rds.get_tagged_rds_instances settings rds []) as [tagged tr] eqn:E.
  assert (Forall (Rds.scheduled current_hour current_day) tr) as Hquiet.
  { pose proof (rds_fetch_targets []) as Hnone. rewrite E in Hnone.
    simpl in Hnone. clear E. induction tr as [| e tr IH]; [done |].
    unfold Rds.targets in Hnone. simpl in Hnone.
    destruct (Rds.target e) eqn:He; [done |].
    constructor; [by destruct e | by apply IH]. }
  pose proof (rds_manage_scheduled tagged tr Hquiet) as Hall.
  by destruct (Rds.manage rds current_hour current_day tagged tr) as [[e |] tr'].
Qed.

Lemma rds_served_targets ids tr tr' :
  rds_served rds ids tr tr' -> Rds.targets tr' = Rds.targets tr ++ ids.
Proof.
  induction 1 as [tr | id ids tr log request tr' Hlog Hreq _ _ IH].
  - by rewrite app_nil_r.
  - rewrite IH, rds_targets_app. unfold Rds.targets at 2. simpl.
    rewrite Hlog, Hreq. simpl. by rewrite <- app_assoc.
Qed.

(** The loop serves the identifiers in order until a request raises. *)
Lemma rds_manage_served ids tr :
  match Rds.manage rds current_hour current_day ids tr with
  | (None, tr') => rds_served rds ids tr tr'
  | (Some e, tr') =>
      exists served id later tr1 log request,
        ids = served ++ id :: later /\
        rds_served rds served tr tr1 /\
        Rds.target log = None /\
        Rds.target request = Some id /\
        rds_answer rds (tr1 ++ [log]) request = Some e /\
        tr' = tr1 ++ [log; request]
  end.
Proof.
  revert tr. induction ids as [| id ids IH]; intros tr; simpl;
    [constructor |].
  assert (forall log request,
             Rds.target log = None -> Rds.target request = Some id ->
             match
               match rds_answer rds (tr ++ [log]) request with
               | Some e => (Some e, (tr ++ [log]) ++ [request])
               | None =>
                   Rds.manage rds current_hour current_day ids
                     ((tr ++ [log]) ++ [request])
               end
             with
             | (None, tr') => rds_served rds (id :: ids) tr tr'
             | (Some e, tr') =>
                 exists served id' later tr1 log' request',
                   id :: ids = served ++ id' :: later /\
                   rds_served rds served tr tr1 /\
                   Rds.target log' = None /\
                   Rds.target request' = Some id' /\
                   rds_answer rds (tr1 ++ [log']) request' = Some e /\
                   tr' = tr1 ++ [log'; request']
             end) as Hcase.
  { intros log request Hlog Hreq.
    destruct (rds_answer rds (tr ++ [log]) request) as [e |] eqn:Hanswer.
    - exists [], id, ids, tr, log, request. rewrite <- app_assoc.
      repeat split; try done. constructor.
    - pose proof (IH ((tr ++ [log]) ++ [request])) as Hrest.
      rewrite <- app_assoc in Hrest. rewrite <- app_assoc. simpl in *.
      destruct (Rds.manage rds current_hour current_day ids
                  (tr ++ [log; request])) as [[e |] tr'].
      + destruct Hrest
          as (served & id' & later & tr1 & log' & request' & -> & Hserved
              & Hlog' & Hreq' & Hanswer' & ->).
        exists (id :: served), id', later, tr1, log', request'.
        repeat split; try done.
        by apply (rds_served_next rds id served tr log request tr1).
      + by apply (rds_served_next rds id ids tr log request tr'). }
  destruct ((0 <=? current_day) && (current_day <=? 4));
    [destruct ((6 <=? current_hour) && (current_hour <? 18)) |].
  - by apply (Hcase (Rds.LogStarting id) (Rds.StartDbInstance id)).
  - by apply (Hcase (Rds.LogStopping id) (Rds.StopDbInstance id)).
  - by apply (Hcase (Rds.LogStoppingWeekend id) (Rds.StopDbInstance id)).
Qed.

(** X22. The handler acts on the tagged instances in the order of the
    listing, one request each. When every request returns it completes,
    having acted on all of them. When a request raises, the handler
    raises the same exception right after that request: the instances
    before it were acted on and their requests returned, and the
    instances after it get no request. *)
Theorem rds_handler_stops_at_the_first_failed_request :
  match Rds.lambda_handler settings rds current_hour current_day with
  | (Rds.Completed msg, tr) =>
      msg = "Lambda execution completed." /\
      rds_served rds
        (fst (Rds.get_tagged_rds_instances settings rds []))
        (snd (Rds.get_tagged_rds_instances settings rds [])) tr /\
      Rds.targets tr = fst (Rds.get_tagged_rds_instances settings rds [])
  | (Rds.Raised e, tr) =>
      exists served id later tr1 log request,
        fst (Rds.get_tagged_rds_instances settings rds [])
        = served ++ id :: later /\
        rds_served rds served
          (snd (Rds.get_tagged_rds_instances settings rds [])) tr1 /\
        Rds.target log = None /\
        Rds.target request = Some id /\
        rds_answer rds (tr1 ++ [log]) request = Some e /\
        tr = tr1 ++ [log; request] /\
        Rds.targets tr = served ++ [id]
  end.
Proof.
  unfold Rds.lambda_handler.
  pose proof (rds_fetch_targets []) as Hnone.
  destruct (Rds.get_tagged_rds_instances settings rds []) as [tagged tr0].
  simpl in Hnone. simpl fst. simpl snd.
  pose proof (rds_manage_served tagged tr0) as Hserved.
  destruct (Rds.manage rds current_hour current_day tagged tr0)
    as [[e |] tr'].
  - destruct Hserved
      as (served & id & later & tr1 & log & request & -> & Hserved & Hlog
          & Hreq & Hanswer & ->).
    exists served, id, later, tr1, log, request. repeat split; try done.
    rewrite rds_targets_app, (rds_served_targets _ _ _ Hserved), Hnone.
    unfold Rds.targets at 1. simpl. by rewrite Hlog, Hreq.
  - split; [done |]. split; [done |].
    by rewrite (rds_served_targets _ _ _ Hserved), Hnone.
Qed.

End RdsSchedule.

Section RdsFetch.
Variable settings : Rds.Settings.
Variable rds : Rds.Service.

Lemma rds_collect_fails instances db tagged tr :
  db ∈ instances ->
  (Rds.DBInstanceArn db = None \/
   exists arn e,
     Rds.DBInstanceArn db = Some arn /\
     forall history, Rds.list_tags_for_resource rds history arn = Rds.Failed e) ->
  exists e' tr',
    Rds.collect settings rds instances tagged tr = (Rds.Failed e', tr').
Proof.
  intros Hin Hbad. revert tagged tr.
  induction instances as [| db' instances IH]; intros tagged tr;
    [by inversion Hin |].
  simpl. apply elem_of_cons in Hin as [<- | Hin].
  - destruct Hbad as [-> | (arn & e & -> & Hfail)]; [by eexists _, _ |].
    rewrite Hfail. by eexists _, _.
  - destruct (Rds.DBInstanceArn db') as [arn' |]; [| by eexists _, _].
    destruct (Rds.list_tags_for_resource rds tr arn') as [tags | e];
      [| by eexists _, _].
    destruct (Rds.tag_dict tags) as [d | e]; [| by eexists _, _].
    destruct (Rds.required_tags_match settings d); [| by apply IH].
    destruct (Rds.DBInstanceIdentifier db'); [by apply IH | by eexists _, _].
Qed.

(** X23. Fetching is all or nothing: when one listed instance has no
    ["DBInstanceArn"] key, or the tag request for it raises, the list of
    tagged instances is empty, the failure is logged, and the handler
    completes without starting or stopping any instance, those listed
    and matched before it included. *)
Theorem rds_unreadable_instance_disables_management
    instances db current_hour current_day :
  Rds.describe_db_instances rds [] = Rds.Got instances ->
  db ∈ instances ->
  (Rds.DBInstanceArn db = None \/
   exists arn e,
     Rds.DBInstanceArn db = Some arn /\
     forall history, Rds.list_tags_for_resource rds history arn = Rds.Failed e) ->
  fst (Rds.get_tagged_rds_instances settings rds []) = [] /\
  (exists e', Rds.LogFetchError e'
              ∈ snd (Rds.get_tagged_rds_instances settings rds [])) /\
  fst (Rds.lambda_handler settings rds current_hour current_day)
  = Rds.Completed "Lambda execution completed." /\
  Rds.targets (snd (Rds.lambda_handler settings rds current_hour current_day))
  = [].
Proof.
  intros Hdescribe Hin Hbad.
  pose proof (rds_fetch_targets settings rds []) as Hnone.
  unfold Rds.lambda_handler. revert Hnone.
  unfold Rds.get_tagged_rds_instances. rewrite Hdescribe.
  destruct (rds_collect_fails instances db [] ([] ++ [Rds.DescribeDbInstances])
              Hin Hbad) as (e' & tr' & ->).
  simpl. intros Hnone. split; [done |]. split; [| done].
  exists e'. apply elem_of_app. right. apply list_elem_of_here.
Qed.

Lemma rds_collect_selects tags_of instances tagged tr :
  (forall history arn,
      Rds.list_tags_for_resource rds history arn = Rds.Got (tags_of arn)) ->
  Forall (rds_readable tags_of) instances ->
  Rds.collect settings rds instances tagged tr
  = (Rds.Got (tagged ++ omap (rds_selected settings tags_of) instances),
     tr ++ omap (fun db => Rds.ListTagsForResource <$> Rds.DBInstanceArn db)
             instances).
Proof.
  intros Htags Hall. revert tagged tr.
  induction Hall as [| db instances (arn & id & d & Harn & Hid & Hd) _ IH];
    intros tagged tr; simpl.
  - by rewrite !app_nil_r.
  - unfold rds_selected at 1. rewrite Harn, Hid, Htags, Hd. simpl.
    destruct (Rds.required_tags_match settings d); rewrite IH.
    + by rewrite <- !app_assoc.
    + by rewrite <- !app_assoc.
Qed.

(** X24. When the listing and the tag requests succeed and every entry
    has its keys, the tagged instances are, in listing order, the
    identifiers of exactly the instances whose tags match the required
    tag; fetching makes one listing request and then one tag request per
    instance, in order, and nothing else. *)
Theorem rds_tagged_instances_are_the_matching_ones tags_of instances :
  Rds.describe_db_instances rds [] = Rds.Got instances ->
  (forall history arn,
      Rds.list_tags_for_resource rds history arn = Rds.Got (tags_of arn)) ->
  Forall (rds_readable tags_of) instances ->
  Rds.get_tagged_rds_instances settings rds []
  = (omap (rds_selected settings tags_of) instances,
     Rds.DescribeDbInstances
     :: omap (fun db => Rds.ListTagsForResource <$> Rds.DBInstanceArn db)
          instances).
Proof.
  intros Hdescribe Htags Hall. unfold Rds.get_tagged_rds_instances.
  rewrite Hdescribe. by rewrite (rds_collect_selects tags_of).
Qed.

Lemma rds_tag_dict_from_lookup tags k d d' :
  Rds.tag_dict_from tags d = Rds.Got d' ->
  (forall t, t ∈ tags -> Rds.Key t <> Some k) ->
  d' !! k = d !! k.
Proof.
  revert d. induction tags as [| t tags IH]; intros d; simpl.
  - by intros [= <-].
  - destruct (Rds.Key t) as [k' |] eqn:Hk; [| done].
    destruct (Rds.Value t) as [v |]; [| done].
    intros Hrest Hnone. rewrite (IH _ Hrest).
    + apply lookup_insert_ne. intros ->.
      by apply (Hnone t); [apply list_elem_of_here |].
    + intros t' Hin. apply Hnone. by apply list_elem_of_further.
Qed.

Lemma rds_tag_dict_from_app pre post d d' :
  Rds.tag_dict_from (pre ++ post) d = Rds.Got d' ->
  exists d1,
    Rds.tag_dict_from pre d = Rds.Got d1 /\
    Rds.tag_dict_from post d1 = Rds.Got d'.
Proof.
  revert d. induction pre as [| t pre IH]; intros d; simpl.
  - intros H. by exists d.
  - destruct (Rds.Key t); [| done]. destruct (Rds.Value t); [| done].
    apply IH.
Qed.

(** X25. The required tag is read from the last entry of the tag list
    that has its key, and a tag list without that key reads as the empty
    string: an untagged instance is managed exactly when [TAG_VALUE] is
    empty. *)
Theorem rds_required_tag_is_read_from_the_last_entry tags d :
  Rds.tag_dict tags = Rds.Got d ->
  (forall pre t post v,
      tags = pre ++ t :: post ->
      Rds.Key t = Some (Rds.TAG_KEY settings) ->
      Rds.Value t = Some v ->
      (forall t', t' ∈ post -> Rds.Key t' <> Some (Rds.TAG_KEY settings)) ->
      Rds.required_tags_match settings d
      = bool_decide (Rds.TAG_VALUE settings = v)) /\
  ((forall t, t ∈ tags -> Rds.Key t <> Some (Rds.TAG_KEY settings)) ->
   Rds.required_tags_match settings d
   = bool_decide (Rds.TAG_VALUE settings = "")).
Proof.
  unfold Rds.tag_dict, Rds.required_tags_match, str_eqb. intros Hd. split.
  - intros pre t post v -> Hk Hv Hlast.
    apply rds_tag_dict_from_app in Hd as (d1 & _ & Hd). simpl in Hd.
    rewrite Hk, Hv in Hd.
    rewrite (rds_tag_dict_from_lookup _ _ _ _ Hd Hlast).
    by rewrite lookup_insert_eq.
  - intros Hnone.
    rewrite (rds_tag_dict_from_lookup _ _ _ _ Hd Hnone).
    by rewrite lookup_empty.
Qed.

End RdsFetch.

(* ===================================================================== *)
(** ** Snapshots on demand *)
(* ===================================================================== *)

Section OnDemand.
Context {Response : Type}.
Variable aws : SnapshotCreation.Service Response.
Variable now_text : list SnapshotCreation.Event -> string.

(** The loop serves the volumes in order until a request raises. *)
Lemma notify_all_served ids tr :
  match SnapshotCreation.notify_all aws now_text ids tr with
  | (None, tr') => snapshots_served aws now_text ids tr tr'
  | (Some e, tr') =>
      exists served v later tr1,
        ids = served ++ v :: later /\
        snapshots_served aws now_text served tr tr1 /\
        (snapshot_answer aws tr1 (snapshot_request now_text v tr1) = Some e /\
         tr' = tr1 ++ [snapshot_request now_text v tr1]
         \/
         exists snapshot_id,
           SnapshotCreation.create_snapshot aws tr1 v
             ("Snapshot of " +:+ v +:+ " on " +:+ now_text tr1)
           = inr snapshot_id /\
           snapshot_answer aws (tr1 ++ [snapshot_request now_text v tr1])
             (snapshot_notice snapshot_id v) = Some e /\
           tr' = tr1 ++ [snapshot_request now_text v tr1;
                         snapshot_notice snapshot_id v])
  end.
Proof.
  revert tr. induction ids as [| v ids IH]; intros tr; simpl;
    [constructor |].
  unfold SnapshotCreation.create_snapshot_and_notify.
  destruct (SnapshotCreation.create_snapshot aws tr v
              ("Snapshot of " +:+ v +:+ " on " +:+ now_text tr))
    as [e | sid] eqn:Hcreate.
  - exists [], v, ids, tr. split; [done |]. split; [constructor |].
    left. unfold snapshot_answer, snapshot_request. by rewrite Hcreate.
  - destruct (SnapshotCreation.publish aws
                (tr ++ [SnapshotCreation.CreateSnapshot v
                          ("Snapshot of " +:+ v +:+ " on " +:+ now_text tr)])
                SnapshotCreation.SNS_TOPIC_ARN
                ("Snapshot " +:+ sid +:+ " created for volume " +:+ v)
                "EBS Snapshot Created") as [e | resp] eqn:Hpublish.
    + exists [], v, ids, tr. split; [done |]. split; [constructor |].
      right. exists sid. split; [done |].
      unfold snapshot_answer, snapshot_notice, snapshot_request.
      rewrite Hpublish. split; [done |]. by rewrite <- app_assoc.
    + pose proof (IH ((tr ++ [snapshot_request now_text v tr])
                      ++ [snapshot_notice sid v])) as Hrest.
      unfold snapshot_request at 1 2, snapshot_notice at 1 in Hrest.
      assert (snapshot_answer aws (tr ++ [snapshot_request now_text v tr])
                (snapshot_notice sid v) = None) as Hnotice.
      { unfold snapshot_answer, snapshot_notice, snapshot_request.
        by rewrite Hpublish. }
      destruct (SnapshotCreation.notify_all aws now_text ids _)
        as [[e |] tr'].
      * destruct Hrest as (served & v' & later & tr1 & -> & Hserved & Hend).
        exists (v :: served), v', later, tr1. split; [done |].
        split; [| done]. econstructor; [done | done |].
        by rewrite <- app_assoc in Hserved.
      * econstructor; [done | done |]. by rewrite <- app_assoc in Hrest.
Qed.

(** X26. The snapshot handler takes the volumes of the event in order:
    for each it asks for a snapshot and then sends one notification,
    which names the id that request returned and that volume. When every
    request returns the handler returns, all volumes served. When a
    request raises, the handler raises the same exception right after
    it: the volumes before were served, the volume of the failing
    request gets no notification if its snapshot request was the one
    that raised, and the volumes after it get no request. Without a
    ["volume_ids"] key the handler raises [KeyError] before any
    request. *)
Theorem snapshot_handler_stops_at_the_first_failed_request ids :
  SnapshotCreation.lambda_handler aws now_text
    {| SnapshotCreation.volume_ids := None |}
  = (Some (SnapshotCreation.MissingKey "volume_ids"), []) /\
  match SnapshotCreation.lambda_handler aws now_text
          {| SnapshotCreation.volume_ids := Some ids |} with
  | (None, tr) => snapshots_served aws now_text ids [] tr
  | (Some e, tr) =>
      exists served v later tr1,
        ids = served ++ v :: later /\
        snapshots_served aws now_text served [] tr1 /\
        (snapshot_answer aws tr1 (snapshot_request now_text v tr1) = Some e /\
         tr = tr1 ++ [snapshot_request now_text v tr1]
         \/
         exists snapshot_id,
           SnapshotCreation.create_snapshot aws tr1 v
             ("Snapshot of " +:+ v +:+ " on " +:+ now_text tr1)
           = inr snapshot_id /\
           snapshot_answer aws (tr1 ++ [snapshot_request now_text v tr1])
             (snapshot_notice snapshot_id v) = Some e /\
           tr = tr1 ++ [snapshot_request now_text v tr1;
                        snapshot_notice snapshot_id v])
  end.
Proof.
  split; [done |]. unfold SnapshotCreation.lambda_handler. simpl.
  apply notify_all_served.
Qed.

End OnDemand.

Lemma rds_unreadable_instance_disables_management_witness :
  fst (Rds.get_tagged_rds_instances Rds.production
         (Rds.steady (Rds.Got [Rds.db "a"; Rds.db "b"])
            Rds.sample_tags_denied (fun _ => None) (fun _ => None)) [])
  = [] /\
  Rds.targets
    (snd (Rds.lambda_handler Rds.production
            (Rds.steady (Rds.Got [Rds.db "a"; Rds.db "b"])
               Rds.sample_tags_denied (fun _ => None) (fun _ => None))
            9 1))
  = [].
Proof.
  destruct (rds_unreadable_instance_disables_management Rds.production
              (Rds.steady (Rds.Got [Rds.db "a"; Rds.db "b"])
                 Rds.sample_tags_denied (fun _ => None) (fun _ => None))
              [Rds.db "a"; Rds.db "b"] (Rds.db "b") 9 1)
    as (Hnone & _ & _ & Hquiet).
  - reflexivity.
  - apply list_elem_of_further, list_elem_of_here.
  - right. exists "arn:aws:rds:b", (Rds.ApiFailure "AccessDenied").
    split; reflexivity.
  - split; [exact Hnone | exact Hquiet].
Defined.

Lemma rds_tagged_instances_are_the_matching_ones_witness :
  fst (Rds.get_tagged_rds_instances Rds.production
         (Rds.steady (Rds.Got [Rds.db "a"; Rds.db "b"])
            (fun arn => Rds.Got (Rds.sample_tags arn))
            (fun _ => None) (fun _ => None)) [])
  = ["a"].
Proof.
  rewrite (rds_tagged_instances_are_the_matching_ones Rds.production
             (Rds.steady (Rds.Got [Rds.db "a"; Rds.db "b"])
                (fun arn => Rds.Got (Rds.sample_tags arn))
                (fun _ => None) (fun _ => None))
             Rds.sample_tags [Rds.db "a"; Rds.db "b"]).
  - reflexivity.
  - reflexivity.
  - reflexivity.
  - repeat constructor; by eexists _, _, _.
Defined.

Lemma rds_required_tag_is_read_from_the_last_entry_witness :
  Rds.required_tags_match Rds.production
    (<["Environment" := "Dev"]> (<["Environment" := "Production"]> ∅))
  = false.
Proof.
  destruct (rds_required_tag_is_read_from_the_last_entry Rds.production
              [Rds.tag "Environment" "Production"; Rds.tag "Environment" "Dev"]
              (<["Environment" := "Dev"]>
                 (<["Environment" := "Production"]> ∅)))
    as [Hlast _]; [reflexivity |].
  rewrite (Hlast [Rds.tag "Environment" "Production"]
             (Rds.tag "Environment" "Dev") [] "Dev");
    [reflexivity | reflexivity | reflexivity | reflexivity |].
  intros t' Hin. by inversion Hin.
Defined.

(** Two tagged instances on a weekday morning; the start of the second,
    the last, raises: both were acted on and the handler raises. *)
Lemma rds_last_request_raises :
  Rds.lambda_handler Rds.production
    (Rds.steady (Rds.Got [Rds.db "a"; Rds.db "c"])
       (fun _ => Rds.Got [Rds.tag "Environment" "Production"])
       (fun id => if str_eqb id "c"
                  then Some (Rds.ApiFailure "InvalidDBInstanceState")
                  else None)
       (fun _ => None))
    9 1
  = (Rds.Raised (Rds.ApiFailure "InvalidDBInstanceState"),
     [Rds.DescribeDbInstances;
      Rds.ListTagsForResource "arn:aws:rds:a";
      Rds.ListTagsForResource "arn:aws:rds:c";
      Rds.LogStarting "a"; Rds.StartDbInstance "a";
      Rds.LogStarting "c"; Rds.StartDbInstance "c"]).
Proof. reflexivity. Qed.

(** Two volumes; the notification for the first is refused: the second
    volume gets no request. *)
Lemma snapshot_notice_refused :
  SnapshotCreation.lambda_handler
    {| SnapshotCreation.create_snapshot := fun _ v _ => inr ("snap-" +:+ v);
       SnapshotCreation.publish :=
         fun _ _ _ _ =>
           inl (SnapshotCreation.ApiFailure "AuthorizationError") : _ + unit |}
    (fun _ => "2024-01-01 00:00:00")
    {| SnapshotCreation.volume_ids := Some ["vol-1"; "vol-2"] |}
  = (Some (SnapshotCreation.ApiFailure "AuthorizationError"),
     [SnapshotCreation.CreateSnapshot "vol-1"
        "Snapshot of vol-1 on 2024-01-01 00:00:00";
      SnapshotCreation.Publish SnapshotCreation.SNS_TOPIC_ARN
        "Snapshot snap-vol-1 created for volume vol-1"
        "EBS Snapshot Created"]).
Proof. reflexivity. Qed.
